(** * update_pools_parallelv2.py: a shallow embedding and its properties

    The development follows the layout of the script:
    - [Json]      : parsed JSON documents as Python holds them (dicts keep
                    insertion order), with the comparisons the script uses;
    - [Pools]     : [update_pools_list] and the document update made by
                    [process_host] (lines 208-215);
    - [Backup]    : the rotation script of [make_remote_backup], run on a
                    model of the remote backup directory;
    - [Switch]    : [remote_send_switchpool];
    - [Workflow]  : [process_host], with its early returns, its catch-all
                    handler and the trace of the remote operations;
    - [Batch]     : the collection loop of [main];
    - [Sample]    : a runtime, hosts and documents for the examples.

    Library calls ([json.loads], [json.dumps], [bytes.decode], [str.lower],
    [str.strip]) are parameters, bundled in [PyRuntime]. *)

From Stdlib Require Import ZArith String Ascii List Bool Lia Permutation.
From Stdlib Require Import Floats.SpecFloat.
From stdpp Require Import base option list gmap strings pretty.

Open Scope string_scope.
Open Scope Z_scope.

(** Exceptions (instances of [Exception]) carry what the script looks at:
    [type(e).__name__], [str(e)] and whether [except IOError] catches
    them. *)
Record exn := Exn {
  exn_name : string;
  exn_text : string;
  exn_ioerror : bool
}.

(** [exn + A]: the call raised, or returned a value. *)
Definition raises (A : Type) : Type := (exn + A)%type.

Definition rbind {A B} (c : raises A) (k : A → raises B) : raises B :=
  match c with
  | inl e => inl e
  | inr a => k a
  end.

Notation "'let*' x ':=' c 'in' k" := (rbind c (fun x => k))
  (at level 10, x name, c at level 100, k at level 200, only parsing).

(** [for x in l: x' = f x], stopping at the first exception. *)
Fixpoint rmap {A B} (f : A → raises B) (l : list A) : raises (list B) :=
  match l with
  | [] => inr []
  | x :: l' =>
      let* y := f x in
      let* ys := rmap f l' in
      inr (y :: ys)
  end.

(* ================================================================== *)
Module Json.

(** A value as [json.loads] returns it.  A dict is an association list in
    insertion order. *)
#[warnings="-register-all"] Inductive json :=
| JNull
| JBool (b : bool)
| JInt (n : Z)
| JFloat (f : spec_float)
| JStr (s : string)
| JArr (l : list json)
| JObj (d : list (string * json)).

Definition dict := list (string * json).

(** [d[k]] when present (first binding). *)
Fixpoint dict_get (k : string) (d : dict) : option json :=
  match d with
  | [] => None
  | (k', v) :: d' => if String.eqb k k' then Some v else dict_get k d'
  end.

(** [d[k] = v]: an existing key keeps its position, a new key goes last. *)
Fixpoint dict_set (k : string) (v : json) (d : dict) : dict :=
  match d with
  | [] => [(k, v)]
  | (k', v') :: d' =>
      if String.eqb k k' then (k', v) :: d' else (k', v') :: dict_set k v d'
  end.

(** [d.get(k)]: a missing key reads as [None]. *)
Definition py_get (k : string) (d : dict) : json :=
  match dict_get k d with
  | Some v => v
  | None => JNull
  end.

(** [d.get(k, dflt)]. *)
Definition py_get_default (k : string) (dflt : json) (d : dict) : json :=
  match dict_get k d with
  | Some v => v
  | None => dflt
  end.

(** The number a float denotes equals the integer [n]; infinities and NaN
    equal no integer. *)
Definition float_eq_int (f : spec_float) (n : Z) : bool :=
  match f with
  | S754_zero _ => n =? 0
  | S754_finite s m e =>
      let sm := if s then Z.neg m else Z.pos m in
      if 0 <=? e then sm * 2 ^ e =? n else sm =? n * 2 ^ (- e)
  | _ => false
  end.

(** [v == n] for an int literal [n]: Python compares numbers by value, and
    [bool] is a subclass of [int]. *)
Definition py_eq_int (v : json) (n : Z) : bool :=
  match v with
  | JInt m => m =? n
  | JBool b => (if b then 1 else 0) =? n
  | JFloat f => float_eq_int f n
  | _ => false
  end.

(** [v == s] for a string [s]. *)
Definition py_eq_str (v : json) (s : string) : bool :=
  match v with
  | JStr t => String.eqb t s
  | _ => false
  end.

Definition py_type_name (v : json) : string :=
  match v with
  | JNull => "NoneType"
  | JBool _ => "bool"
  | JInt _ => "int"
  | JFloat _ => "float"
  | JStr _ => "str"
  | JArr _ => "list"
  | JObj _ => "dict"
  end.

Definition AttributeError (v : json) (attr : string) : exn :=
  Exn "AttributeError"
      ("'" +:+ py_type_name v +:+ "' object has no attribute '" +:+ attr +:+ "'")
      false.

Definition TypeError_not_iterable (v : json) : exn :=
  Exn "TypeError" ("'" +:+ py_type_name v +:+ "' object is not iterable") false.

(** [v.get(k)]: only dicts have the method. *)
Definition method_get (v : json) (k : string) : raises json :=
  match v with
  | JObj d => inr (py_get k d)
  | _ => inl (AttributeError v "get")
  end.

(** [v[k] = x] on a value on which [v.get] has just succeeded. *)
Definition setitem (v : json) (k : string) (x : json) : json :=
  match v with
  | JObj d => JObj (dict_set k x d)
  | _ => v
  end.

(** [v.get(k, dflt)]. *)
Definition method_get_default (v : json) (k : string) (dflt : json)
  : raises json :=
  match v with
  | JObj d => inr (py_get_default k dflt d)
  | _ => inl (AttributeError v "get")
  end.

(** The items a [for] loop visits: the elements of a list, the keys of a
    dict, the characters of a string; other values are not iterable. *)
Definition py_iter (v : json) : raises (list json) :=
  match v with
  | JArr l => inr l
  | JObj d => inr (map (fun kv => JStr (fst kv)) d)
  | JStr s => inr (map (fun c => JStr (String c EmptyString)) (list_ascii_of_string s))
  | _ => inl (TypeError_not_iterable v)
  end.

(** Truth value of an [Optional[str]] argument. *)
Definition truthy (u : option string) : bool :=
  match u with
  | Some s => negb (String.eqb s "")
  | None => false
  end.

End Json.
Export Json.

(* ================================================================== *)
(** The library functions the script calls on text and documents. *)
Record PyRuntime := {
  str_lower : string → string;
  str_strip : string → string;
  utf8_decode : string → raises string;
  json_loads : string → raises json;
  json_dumps : json → raises string
}.

(** [f"{type(e).__name__}: {e}"]. *)
Definition describe (e : exn) : string := exn_name e +:+ ": " +:+ exn_text e.

(* ================================================================== *)
Module Pools.

(** [u and p.get("url") == u] (lines 154 and 157): [p.get] is only called
    when [u] is truthy. *)
Definition targets (u : option string) (p : json) : raises bool :=
  match u with
  | Some s =>
      if String.eqb s "" then inr false
      else let* url := method_get p "url" in inr (py_eq_str url s)
  | None => inr false
  end.

(** [if p.get("disabled") != flag: p["disabled"] = flag]. *)
Definition set_disabled (flag : Z) (p : json) : raises json :=
  let* cur := method_get p "disabled" in
  if negb (py_eq_int cur flag) then inr (setitem p "disabled" (JInt flag))
  else inr p.

(** The body of the loop at lines 153-159, for one item [p]. *)
Definition update_entry (disable_url enable_url : option string) (p : json)
  : raises json :=
  let* dis := targets disable_url p in
  if dis then set_disabled 1 p
  else
    let* en := targets enable_url p in
    if en then set_disabled 0 p else inr p.

(** [update_pools_list] (lines 146-161).  The loop mutates the entries of
    [existing_pools] in place and the function returns that same list; the
    value returned here is the list after the loop.  Items of a dict or of a
    string are strings, on which the body can only raise or do nothing.  The
    caller drops the document when the loop raises. *)
Definition update_pools_list (existing_pools : json)
  (disable_url enable_url : option string) (new_pools : option json)
  : raises json :=
  match new_pools with
  | Some np => inr np
  | None =>
      let* items := py_iter existing_pools in
      let* items' := rmap (update_entry disable_url enable_url) items in
      match existing_pools with
      | JArr _ => inr (JArr items')
      | _ => inr existing_pools
      end
  end.

(** Lines 208-215 of [process_host]: the update of the parsed document. *)
Definition update_config (config : json)
  (disable_url enable_url : option string) (new_pools : option json)
  : raises json :=
  let* user_val := method_get config "user" in
  let* pools_existing := method_get_default config "pools" (JArr []) in
  let* pools_updated :=
    update_pools_list pools_existing disable_url enable_url new_pools in
  let config1 := setitem config "pools" pools_updated in
  match user_val with
  | JNull => inr config1
  | _ => inr (setitem config1 "user" user_val)
  end.

(** What the loop body can do to an item: nothing, or one assignment to
    ["disabled"] on a dict that the branch taken targets. *)
Inductive entry_step (du eu : option string) (p : json) : json → Prop :=
| step_keep : entry_step du eu p p
| step_disable d :
    p = JObj d → targets du p = inr true →
    py_eq_int (py_get "disabled" d) 1 = false →
    entry_step du eu p (JObj (dict_set "disabled" (JInt 1) d))
| step_enable d :
    p = JObj d → targets du p = inr false → targets eu p = inr true →
    py_eq_int (py_get "disabled" d) 0 = false →
    entry_step du eu p (JObj (dict_set "disabled" (JInt 0) d)).

(** How an item of the pools list may differ after the loop: an item that
    neither target matches is the same value; a dict keeps every field other
    than ["disabled"]. *)
Definition entry_frame (du eu : option string) (p p' : json) : Prop :=
  (targets du p ≠ inr true → targets eu p ≠ inr true → p' = p) ∧
  (∀ k, k ≠ "disabled" → method_get p' k = method_get p k) ∧
  (∀ d, p = JObj d →
     ∃ d', p' = JObj d' ∧ ∀ k, k ≠ "disabled" → dict_get k d' = dict_get k d).

End Pools.
Export Pools.

(* ================================================================== *)
Module Backup.

(** Names in the backup directory. *)
Definition orig_name : string := "config.json.orig".
Definition slot (i : nat) : string := "config.json." +:+ pretty i.

(** What the rotation script sees of the remote host: the live config
    ([None]: no such file), the regular files of the backup directory by
    name (a missing directory holds none), and the text written to stderr
    so far. *)
Record shstate := ShState {
  sh_live : option string;
  sh_files : gmap string string;
  sh_err : string
}.

(** A command that fails for a reason outside the model (permissions, a
    full disk): its non-zero exit status and its diagnostic.  [mkdir], [cd],
    [rm] and [mv] (a rename inside one directory) leave the files as they
    were when they fail. *)
Record fault := Fault { fault_status : positive; fault_diag : string }.

(** What a [cp] that fails that way leaves at its destination: the
    destination as it was, when [cp] could not open it for writing (a
    directory that is not writable), or the first [n] bytes of the source,
    when [cp] stopped while writing (a full disk). *)
Inductive cp_left :=
| Untouched
| Truncated (n : nat).

(** Which commands of one run of the script fail that way.  The two [cp]
    commands have their diagnostic sent to /dev/null; [f_cp_orig_left] and
    [f_cp_slot_left] say what each leaves behind when it fails. *)
Record faults := Faults {
  f_mkdir : option fault;
  f_cd : option fault;
  f_cp_orig : bool;
  f_rm : option fault;
  f_mv : nat → option fault;
  f_cp_slot : bool;
  f_cp_orig_left : cp_left;
  f_cp_slot_left : cp_left
}.

(** A command: exit status and new state. *)
Definition cmd := shstate → Z * shstate.

Definition fail_with (ft : fault) : cmd := fun st =>
  (Z.pos (fault_status ft),
   ShState (sh_live st) (sh_files st) (sh_err st +:+ fault_diag ft)).

(** [mkdir -p dir] and [cd dir]. *)
Definition mkdir_p (ft : option fault) : cmd := fun st =>
  match ft with
  | Some f => fail_with f st
  | None => (0, st)
  end.

Definition cd (ft : option fault) : cmd := fun st =>
  match ft with
  | Some f => fail_with f st
  | None => (0, st)
  end.

(** [[ -f name ]]. *)
Definition test_f (name : string) (st : shstate) : bool :=
  bool_decide (is_Some (sh_files st !! name)).

(** [cp config_path name 2>/dev/null]: fails, before it opens the
    destination, when the live config is missing; a [cp] that fails for an
    outside reason leaves the destination as [left] says. *)
Definition cp_live (name : string) (ft : bool) (left : cp_left) : cmd :=
  fun st =>
  match sh_live st with
  | Some c =>
      if ft then
        match left with
        | Untouched => (1, st)
        | Truncated n =>
            (1, ShState (sh_live st)
                        (<[name := String.substring 0 n c]> (sh_files st))
                        (sh_err st))
        end
      else (0, ShState (sh_live st) (<[name := c]> (sh_files st)) (sh_err st))
  | None => (1, st)
  end.

(** [rm -f name]. *)
Definition rm_f (name : string) (ft : option fault) : cmd := fun st =>
  match ft with
  | Some f => fail_with f st
  | None => (0, ShState (sh_live st) (delete name (sh_files st)) (sh_err st))
  end.

(** [mv src dst]. *)
Definition mv (src dst : string) (ft : option fault) : cmd := fun st =>
  match ft with
  | Some f => fail_with f st
  | None =>
      match sh_files st !! src with
      | Some c =>
          (0, ShState (sh_live st) (<[dst := c]> (delete src (sh_files st)))
                      (sh_err st))
      | None => fail_with (Fault 1 "mv: cannot stat") st
      end
  end.

(** [c || true]. *)
Definition or_true (c : cmd) : cmd := fun st => (0, snd (c st)).

(** Lines 118-120. *)
Definition snapshot_orig (f : faults) : cmd := fun st =>
  if negb (test_f orig_name st)
  then or_true (cp_live orig_name (f_cp_orig f) (f_cp_orig_left f)) st
  else (0, st).

(** Line 122. *)
Definition drop_oldest (f : faults) : cmd :=
  or_true (fun st => if test_f (slot 5) st then rm_f (slot 5) (f_rm f) st
                     else (1, st)).

(** The body of the loop at lines 124-126 for one [i]. *)
Definition shift (f : faults) (i : nat) : cmd := fun st =>
  if test_f (slot i) st then mv (slot i) (slot (i + 1)) (f_mv f i) st
  else (0, st).

(** Line 128. *)
Definition copy_newest (f : faults) : cmd :=
  or_true (cp_live (slot 1) (f_cp_slot f) (f_cp_slot_left f)).

(** The script of [make_remote_backup], command by command. *)
Definition rotation_script (f : faults) : list cmd :=
  [mkdir_p (f_mkdir f); cd (f_cd f); snapshot_orig f; drop_oldest f]
  ++ map (shift f) [4; 3; 2; 1]%nat
  ++ [copy_newest f].

(** [set -e]: the script stops at the first command with a non-zero status,
    which becomes the exit status of the script. *)
Fixpoint run_script (cs : list cmd) (st : shstate) : Z * shstate :=
  match cs with
  | [] => (0, st)
  | c :: cs' =>
      let '(es, st') := c st in
      if es =? 0 then run_script cs' st' else (es, st')
  end.

(** The exit status and the files after the first [n] commands of the
    script (all of it from [n = 9] on). *)
Definition rotate_upto (n : nat) (f : faults) (live : option string)
  (files : gmap string string) : Z * gmap string string :=
  let r := run_script (take n (rotation_script f)) (ShState live files "") in
  (r.1, sh_files r.2).

(** One run of the whole script. *)
Definition rotate (f : faults) (live : option string)
  (files : gmap string string) : Z * gmap string string :=
  let r := run_script (rotation_script f) (ShState live files "") in
  (r.1, sh_files r.2).

(** Successive runs, each with its own faults and with the live config as it
    is at that time. *)
Fixpoint rotations (rs : list (faults * option string))
  (files : gmap string string) : gmap string string :=
  match rs with
  | [] => files
  | (f, live) :: rs' => rotations rs' (rotate f live files).2
  end.

(** The names the script may create, overwrite or remove. *)
Definition managed (n : string) : Prop :=
  n = orig_name ∨ ∃ i, (1 ≤ i ≤ 5)%nat ∧ n = slot i.

(** [shift f i] is command number [8 - i] of the script, counting from 0:
    after [k] commands, slot [i] has been handled when [9 ≤ k + i]. *)
Definition shifted (k i : nat) : bool := (9 <=? k + i)%nat.

(** What holds after the first [k] commands of a rotation have succeeded,
    started with live config [live] and backup files [pre]. *)
Definition inv (f : faults) (live : option string)
  (pre : gmap string string) (k : nat) (st : shstate) : Prop :=
  sh_live st = live ∧
  (∀ n, ¬ managed n → sh_files st !! n = pre !! n) ∧
  (∀ c, pre !! orig_name = Some c → sh_files st !! orig_name = Some c) ∧
  (∀ i, (1 ≤ i ≤ 4)%nat → shifted k i = false →
        sh_files st !! slot i = pre !! slot i) ∧
  (∀ i c, (1 ≤ i ≤ 4)%nat → shifted k i = true → pre !! slot i = Some c →
          sh_files st !! slot (S i) = Some c) ∧
  ((k = 9)%nat → ∀ c, live = Some c → f_cp_slot f = false →
                      sh_files st !! slot 1 = Some c) ∧
  ((1 ≤ k)%nat → f_mkdir f = None) ∧
  ((2 ≤ k)%nat → f_cd f = None) ∧
  (∀ i, (1 ≤ i ≤ 4)%nat → shifted k i = true → is_Some (pre !! slot i) →
        f_mv f i = None).

(** The fault that makes command number [j] stop the script. *)
Definition fatal (f : faults) (pre : gmap string string) (j : nat) : Prop :=
  match j with
  | 0%nat => f_mkdir f ≠ None
  | 1%nat => f_cd f ≠ None
  | 4%nat => is_Some (pre !! slot 4) ∧ f_mv f 4 ≠ None
  | 5%nat => is_Some (pre !! slot 3) ∧ f_mv f 3 ≠ None
  | 6%nat => is_Some (pre !! slot 2) ∧ f_mv f 2 ≠ None
  | 7%nat => is_Some (pre !! slot 1) ∧ f_mv f 1 ≠ None
  | _ => False
  end.

(** [make_remote_backup] (lines 112-133), given that [run_ssh_command]
    returned: the script runs on the live config and the backup files; the
    result is [(es == 0, (out + err).strip())] and the files it leaves.  No
    command of the script writes to stdout. *)
Definition make_remote_backup (rt : PyRuntime) (f : faults)
  (live : option string) (files : gmap string string)
  : (bool * string) * gmap string string :=
  let '(es, st) := run_script (rotation_script f) (ShState live files "") in
  let out := "" in
  ((es =? 0, str_strip rt (out +:+ sh_err st)), sh_files st).

End Backup.
Export Backup.

(* ================================================================== *)
Module Switch.

(** [needle in hay]. *)
Fixpoint str_contains (needle hay : string) : bool :=
  String.prefix needle hay ||
  match hay with
  | EmptyString => false
  | String _ hay' => str_contains needle hay'
  end.

(** [remote_send_switchpool] (lines 136-142), given what [run_ssh_command]
    returned for the telnet command: exit status, stdout, stderr. *)
Definition remote_send_switchpool (rt : PyRuntime) (reply : Z * string * string)
  : bool * string :=
  let '(es, out, err) := reply in
  let combined := str_lower rt (out +:+ err) in
  if str_contains "ok|" combined then (true, "switchpool ok")
  else
    let stripped := str_strip rt combined in
    (false,
     if String.eqb stripped "" then "exit_status=" +:+ pretty es else stripped).

(** The marker test as the specification words it: some line of the text
    begins with the marker.  Kept apart from the code's own test, to compare
    the two. *)
Fixpoint split_lines (s : string) : list string :=
  match s with
  | EmptyString => [EmptyString]
  | String c s' =>
      if Ascii.eqb c "010" then EmptyString :: split_lines s'
      else
        match split_lines s' with
        | [] => [String c EmptyString]
        | l :: ls => String c l :: ls
        end
  end.

Definition spec_line_begins_with_ok (text : string) : bool :=
  existsb (String.prefix "ok|") (split_lines text).

End Switch.
Export Switch.

(* ================================================================== *)
Module Workflow.

(** The [result] dict of [process_host]. *)
Record HostResult := mkResult {
  ip : string;
  success : bool;
  updated : bool;
  switched : bool;
  msg : string
}.

(** The remote host: the live config ([None]: no such file) and the regular
    files of the backup directory. *)
Record host := Host {
  live : option string;
  backups : gmap string string
}.

(** What a run does, in order: the remote operations it starts ([EvRotate]
    is logged once the script has returned, with the status it reported) and
    the catch-all handler when it runs. *)
Inductive event :=
| EvConnect
| EvResolve (path : string)
| EvRotate (ok : bool)
| EvOpenSftp
| EvReadConfig
| EvWriteConfig
| EvSwitchpool
| EvUnhandled (e : exn)
| EvCloseSftp
| EvClose.

(** A failed write: the exception, and what it leaves of the live config
    (opening for writing truncates the file). *)
Record write_fault := WriteFault {
  wf_exn : exn;
  wf_left : option string
}.

(** What the network and the remote host do to one run: for each remote
    call, whether it raises, and how the rotation and the telnet command
    go.  Home-relative paths resolve to the live config and the backup
    directory of [host]. *)
Record env := Env {
  e_init : option exn;          (* lines 171-172, outside any [try] *)
  e_connect : option exn;
  e_resolve_config : option exn;
  e_resolve_backup : option exn;
  e_rotate_exec : option exn;
  e_faults : faults;
  e_open_sftp : option exn;
  e_read : option exn;
  e_write : option write_fault;
  e_switch : raises (Z * string * string)
}.

(** The arguments of [process_host] that select what to do.  The user name,
    the password and the port only reach [client.connect], whose outcome is
    in [env]. *)
Record args := Args {
  disable_url : option string;
  enable_url : option string;
  new_pools : option json;
  do_switchpool : bool
}.

(** The state a run threads: the [result] dict, whether [sftp] is set, the
    remote host, and the events so far. *)
Record state := State {
  result : HostResult;
  sftp : bool;
  remote : host;
  trace : list event
}.

(** How a block is left other than by falling through. *)
Inductive exit :=
| Returned
| Raised (e : exn).

Definition M (A : Type) : Type := state → (exit + A) * state.

Definition pure {A} (a : A) : M A := fun s => (inr a, s).

Definition bind {A B} (c : M A) (k : A → M B) : M B := fun s =>
  match c s with
  | (inl x, s') => (inl x, s')
  | (inr a, s') => k a s'
  end.

Notation "'let!' x ':=' c 'in' k" := (bind c (fun x => k))
  (at level 10, x name, c at level 100, k at level 200, only parsing).
Notation "'exec!' c 'in' k" := (bind c (fun _ => k))
  (at level 10, c at level 100, k at level 200, only parsing).

Definition raise {A} (e : exn) : M A := fun s => (inl (Raised e), s).
Definition return_result {A} : M A := fun s => (inl Returned, s).

Definition lift {A} (r : raises A) : M A :=
  match r with
  | inl e => raise e
  | inr a => pure a
  end.

(** A remote call that may raise. *)
Definition may_raise (o : option exn) : M unit :=
  match o with
  | Some e => raise e
  | None => pure tt
  end.

Definition emit (ev : event) : M unit := fun s =>
  (inr tt, State (result s) (sftp s) (remote s) (trace s ++ [ev])).

Definition get_result : M HostResult := fun s => (inr (result s), s).
Definition get_remote : M host := fun s => (inr (remote s), s).

Definition set_result (r : HostResult) : M unit := fun s =>
  (inr tt, State r (sftp s) (remote s) (trace s)).
Definition set_remote (h : host) : M unit := fun s =>
  (inr tt, State (result s) (sftp s) h (trace s)).
Definition set_sftp : M unit := fun s =>
  (inr tt, State (result s) true (remote s) (trace s)).

Definition set_msg (m : string) : M unit :=
  let! r := get_result in
  set_result (mkResult (ip r) (success r) (updated r) (switched r) m).
Definition set_updated (b : bool) : M unit :=
  let! r := get_result in
  set_result (mkResult (ip r) (success r) b (switched r) (msg r)).
Definition set_switched (b : bool) : M unit :=
  let! r := get_result in
  set_result (mkResult (ip r) (success r) (updated r) b (msg r)).
Definition set_success (b : bool) : M unit :=
  let! r := get_result in
  set_result (mkResult (ip r) b (updated r) (switched r) (msg r)).

(** [try: c  except <class> as e: h e], for the exceptions [catches]
    accepts. *)
Definition try_except {A} (c : M A) (catches : exn → bool) (h : exn → M A)
  : M A := fun s =>
  match c s with
  | (inl (Raised e), s') => if catches e then h e s' else (inl (Raised e), s')
  | other => other
  end.

(** [try: c  finally: f], for an [f] that neither raises nor returns. *)
Definition try_finally {A} (c : M A) (f : M unit) : M A := fun s =>
  let '(o, s') := c s in
  (o, snd (f s')).

Definition except_Exception (e : exn) : bool := true.
Definition except_IOError (e : exn) : bool := exn_ioerror e.

Definition CONFIG_PATH_RAW : string := "~/ccminer/config.json".
Definition BACKUP_DIR_RAW : string := "~/ccminer/configbackups".

(** [disable_url or enable_url or new_pools is not None] (line 185). *)
Definition mutation_requested (a : args) : bool :=
  truthy (disable_url a) || truthy (enable_url a)
  || match new_pools a with Some _ => true | None => false end.

(** Lines 173-177. *)
Definition connect (e : env) : M unit :=
  try_except
    (exec! emit EvConnect in may_raise (e_connect e))
    except_Exception
    (fun x =>
       exec! set_msg ("SSH connect failed: " +:+ describe x) in
       return_result).

(** [resolve_remote_path] (lines 104-109). *)
Definition resolve_remote_path (path : string) (o : option exn) : M unit :=
  if String.prefix "~" path then
    exec! emit (EvResolve path) in may_raise o
  else pure tt.

(** Lines 186-190. *)
Definition backup_stage (rt : PyRuntime) (e : env) : M unit :=
  exec! may_raise (e_rotate_exec e) in
  let! h := get_remote in
  let '((ok, bak_msg), files') :=
    make_remote_backup rt (e_faults e) (live h) (backups h) in
  exec! set_remote (Host (live h) files') in
  exec! emit (EvRotate ok) in
  if negb ok then
    exec! set_msg ("backup failed: " +:+ bak_msg) in
    exec! emit EvClose in
    return_result
  else pure tt.

(** Lines 192-199. *)
Definition read_stage (rt : PyRuntime) (e : env) : M string :=
  try_except
    (exec! emit EvOpenSftp in
     exec! may_raise (e_open_sftp e) in
     exec! set_sftp in
     exec! emit EvReadConfig in
     exec! may_raise (e_read e) in
     let! h := get_remote in
     match live h with
     | Some bytes => lift (utf8_decode rt bytes)
     | None => raise (Exn "FileNotFoundError" "[Errno 2] No such file" true)
     end)
    except_IOError
    (fun x =>
       exec! set_msg ("read config failed: " +:+ describe x) in
       exec! emit EvClose in
       return_result).

(** Lines 201-206. *)
Definition parse_stage (rt : PyRuntime) (data : string) : M json :=
  try_except
    (lift (json_loads rt data))
    except_Exception
    (fun x =>
       exec! set_msg ("json parse failed: " +:+ describe x) in
       exec! emit EvClose in
       return_result).

(** Lines 217-224. *)
Definition write_stage (rt : PyRuntime) (e : env) (config : json) : M unit :=
  try_except
    (let! new_json := lift (json_dumps rt config) in
     exec! emit EvWriteConfig in
     let! h := get_remote in
     match e_write e with
     | Some wf =>
         exec! set_remote (Host (wf_left wf) (backups h)) in
         raise (wf_exn wf)
     | None => set_remote (Host (Some new_json) (backups h))
     end)
    except_Exception
    (fun x =>
       exec! set_msg ("write config failed: " +:+ describe x) in
       exec! emit EvClose in
       return_result).

(** Lines 186-227: the branch taken when a mutation is requested. *)
Definition update_stage (rt : PyRuntime) (e : env) (a : args) : M unit :=
  exec! backup_stage rt e in
  let! data := read_stage rt e in
  let! config := parse_stage rt data in
  let! config' :=
    lift (update_config config (disable_url a) (enable_url a) (new_pools a)) in
  exec! write_stage rt e config' in
  exec! set_updated true in
  set_msg "config updated".

(** Lines 230-234. *)
Definition switch_stage (rt : PyRuntime) (e : env) : M unit :=
  exec! emit EvSwitchpool in
  let! reply := lift (e_switch e) in
  let '(switched_ok, switched_msg) := remote_send_switchpool rt reply in
  exec! set_switched switched_ok in
  let! r := get_result in
  exec! (if negb (String.eqb (msg r) "") then set_msg (msg r +:+ " | ")
         else pure tt) in
  let! r' := get_result in
  set_msg (msg r' +:+ "switchpool: " +:+ switched_msg).

(** Lines 181-236: the body of the outer [try]. *)
Definition guarded (rt : PyRuntime) (e : env) (a : args) : M unit :=
  exec! resolve_remote_path CONFIG_PATH_RAW (e_resolve_config e) in
  exec! resolve_remote_path BACKUP_DIR_RAW (e_resolve_backup e) in
  exec! (if mutation_requested a then update_stage rt e a else pure tt) in
  exec! (if do_switchpool a then switch_stage rt e else pure tt) in
  let! r := get_result in
  set_success (updated r || switched r).

(** Lines 238-239. *)
Definition unhandled (x : exn) : M unit :=
  exec! emit (EvUnhandled x) in
  set_msg ("Unhandled error: " +:+ describe x).

(** Lines 240-249. *)
Definition finalizer : M unit := fun s =>
  (inr tt,
   State (result s) (sftp s) (remote s)
         (trace s ++ (if sftp s then [EvCloseSftp] else []) ++ [EvClose])).

(** Lines 173-251. *)
Definition run (rt : PyRuntime) (e : env) (a : args) : M unit :=
  exec! connect e in
  try_finally (try_except (guarded rt e a) except_Exception unhandled)
              finalizer.

(** Line 169 and the state before the first remote call. *)
Definition initial (ip : string) (h : host) : state :=
  State (mkResult ip false false false "") false h [].

(** [process_host]: the exception that escapes the function, or the
    [result] it returns; the remote host afterwards; the events of the
    run. *)
Definition process_host (rt : PyRuntime) (e : env) (a : args) (ip : string)
  (h : host) : raises HostResult * host * list event :=
  match e_init e with
  | Some x => (inl x, h, [])
  | None =>
      let s := snd (run rt e a (initial ip h)) in
      (inr (result s), remote s, trace s)
  end.

End Workflow.
Export Workflow.

(* ================================================================== *)
Module Batch.

(** One submitted host: its address, and what its network and machine do
    during the run.  Hosts are distinct machines: no run sees the files of
    another. *)
Record job := Job {
  j_ip : string;
  j_env : env;
  j_host : host
}.

(** Lines 314-318: the result of a future, or the record built when
    [fut.result()] raises. *)
Definition collect (rt : PyRuntime) (a : args) (j : job) : HostResult :=
  match (process_host rt (j_env j) a (j_ip j) (j_host j)).1.1 with
  | inr res => res
  | inl x =>
      mkResult (j_ip j) false false false ("executor error: " +:+ exn_text x)
  end.

(** [as_completed]: every pending future is yielded once, in the order in
    which they finish.  The scheduler [sched] picks, at each step, which of
    the futures still pending finishes next. *)
Fixpoint as_completed {A} (sched : list nat) (pending : list A) (n : nat)
  : list A :=
  match n with
  | O => []
  | S n' =>
      let k := (hd 0 sched `mod` length pending)%nat in
      match pending !! k with
      | Some x => x :: as_completed (tl sched) (delete k pending) n'
      | None => []
      end
  end.

(** The variables the loop at lines 313-326 updates. *)
Record summary := Summary {
  results : list HostResult;
  succeeded : nat;
  failed : nat
}.

(** Lines 319-325. *)
Definition tally (s : summary) (res : HostResult) : summary :=
  if success res then Summary (results s ++ [res]) (S (succeeded s)) (failed s)
  else Summary (results s ++ [res]) (succeeded s) (S (failed s)).

(** Lines 302-304 and 307-326, the body of the [with] block: one future
    per host, collected as they complete. *)
Definition run_batch (rt : PyRuntime) (a : args) (hosts : list job)
  (sched : list nat) : summary :=
  fold_left (fun s j => tally s (collect rt a j))
            (as_completed sched hosts (length hosts))
            (Summary [] 0 0).

(** Line 306, [ThreadPoolExecutor(max_workers=workers)]: the pool refuses a
    worker count that is not positive. *)
Definition executor (workers : Z) : raises unit :=
  if workers <=? 0 then
    inl (Exn "ValueError" "max_workers must be greater than 0" false)
  else inr tt.

(** Lines 302-326: the pool is created, then the hosts are submitted and
    their results collected.  The worker count bounds how many runs are
    under way at a time; the order in which they complete is [sched]. *)
Definition run_pool (rt : PyRuntime) (a : args) (hosts : list job)
  (sched : list nat) (workers : Z) : raises summary :=
  let* pool := executor workers in
  inr (run_batch rt a hosts sched).

End Batch.
Export Batch.

(* ================================================================== *)
(** A runtime for the examples.  [lower] and [strip] are Python's on ASCII
    text; [decode], [loads] and [dumps] are Python's on the texts and
    documents listed here, which are the only ones the examples give them,
    and raise elsewhere. *)
Module Sample.

Definition lower_char (c : ascii) : ascii :=
  let n := nat_of_ascii c in
  if ((65 <=? n) && (n <=? 90))%nat then ascii_of_nat (n + 32) else c.

Fixpoint lower (s : string) : string :=
  match s with
  | EmptyString => EmptyString
  | String c s' => String (lower_char c) (lower s')
  end.

Definition is_space (c : ascii) : bool :=
  let n := nat_of_ascii c in
  (((9 <=? n) && (n <=? 13)) || ((28 <=? n) && (n <=? 32)))%nat.

Fixpoint lstrip (s : string) : string :=
  match s with
  | EmptyString => EmptyString
  | String c s' => if is_space c then lstrip s' else s
  end.

Definition strip (s : string) : string :=
  String.rev (lstrip (String.rev (lstrip s))).

Definition decode (s : string) : raises string :=
  if forallb (fun c => (nat_of_ascii c <? 128)%nat) (list_ascii_of_string s)
  then inr s
  else inl (Exn "UnicodeDecodeError" "outside the sample" false).

Definition dq : string := String "034"%char EmptyString.
Definition nl : string := String "010"%char EmptyString.

(** [{"pools": []}] as [json.dumps(..., indent=4)] prints it. *)
Definition empty_pools_text : string :=
  "{" +:+ nl +:+ "    " +:+ dq +:+ "pools" +:+ dq +:+ ": []" +:+ nl +:+ "}".

Definition loads (s : string) : raises json :=
  if String.eqb s "{}" then inr (JObj [])
  else if String.eqb s empty_pools_text then inr (JObj [("pools", JArr [])])
  else inl (Exn "JSONDecodeError" "outside the sample" false).

Definition dumps (v : json) : raises string :=
  match v with
  | JObj [("pools", JArr [])] => inr empty_pools_text
  | _ => inl (Exn "TypeError" "outside the sample" false)
  end.

Definition rt : PyRuntime := Build_PyRuntime lower strip decode loads dumps.

Definition no_faults : faults :=
  Faults None None false None (fun _ => None) false Untouched Untouched.

(** An environment where every remote call goes through and the control
    port answers [reply]. *)
Definition calm (reply : raises (Z * string * string)) : env :=
  Env None None None None None no_faults None None None reply.

(** The same, but the backup directory cannot be created. *)
Definition denied : faults :=
  Faults (Some (Fault 1 "mkdir: cannot create directory: Permission denied"))
         None false None (fun _ => None) false Untouched Untouched.

Definition no_backup_dir (reply : raises (Z * string * string)) : env :=
  Env None None None None None denied None None None reply.

Definition vipor : string := "stratum+tcp://ca.vipor.net:5045".
Definition vipor_west : string := "stratum+tcp://usw.vipor.net:5045".

Definition disable_vipor : args := Args (Some vipor) None None true.

(** A host whose config is the empty object and that has no backups yet. *)
Definition fresh_host : host := Host (Some "{}") ∅.

(** A parsed config with two pools and fields the script does not know. *)
Definition two_pools : json :=
  JObj [("user", JStr "RAddress.worker");
        ("pools",
         JArr [JObj [("name", JStr "VIPOR-SOLO"); ("url", JStr vipor);
                     ("timeout", JInt 60); ("disabled", JInt 0)];
               JObj [("name", JStr "VIPOR-SOLO-West");
                     ("url", JStr vipor_west); ("disabled", JInt 0)]]);
        ("threads", JInt 8)].

(** [two_pools] with the first pool disabled. *)
Definition two_pools_disabled : json :=
  JObj [("user", JStr "RAddress.worker");
        ("pools",
         JArr [JObj [("name", JStr "VIPOR-SOLO"); ("url", JStr vipor);
                     ("timeout", JInt 60); ("disabled", JInt 1)];
               JObj [("name", JStr "VIPOR-SOLO-West");
                     ("url", JStr vipor_west); ("disabled", JInt 0)]]);
        ("threads", JInt 8)].

End Sample.


(* ================================================================== *)
Module Range.

(** The address library as [expand_range] uses it: [int(ip_address(s))] and
    [str(ip_address(i))]. *)
Record IpLibrary := {
  ip_parse : string → raises Z;
  ip_format : Z → raises string
}.

(** [s.split("-", 1)] on a string that holds a dash: what is before the
    first dash, and what is after it. *)
Fixpoint split_dash (s : string) : option (string * string) :=
  match s with
  | EmptyString => None
  | String c s' =>
      if Ascii.eqb c "-" then Some (EmptyString, s')
      else
        match split_dash s' with
        | Some (a, b) => Some (String c a, b)
        | None => None
        end
  end.

(** [expand_range] (lines 77-87). *)
Definition expand_range (rt : PyRuntime) (net : IpLibrary)
  (range_str : string) : raises (list string) :=
  if str_contains "-" range_str then
    match split_dash range_str with
    | Some (start_str, end_str) =>
        let* start := ip_parse net (str_strip rt start_str) in
        let* end_ := ip_parse net (str_strip rt end_str) in
        if end_ <? start then
          inl (Exn "ValueError" "Range end must be >= start" false)
        else rmap (ip_format net) (seqZ start (end_ + 1 - start))
    | None =>
        inl (Exn "ValueError"
                 "not enough values to unpack (expected 2, got 1)" false)
    end
  else inr [range_str].

End Range.
Export Range.

(* ================================================================== *)
Module Main.

(** The parsed command line, as far as [main] looks at it. *)
Record cli := Cli {
  cli_range : option string;
  cli_cidr : option string;
  cli_disable_url : option string;
  cli_enable_url : option string;
  cli_set_pools_json : option string;
  cli_switch_pool : bool;
  cli_workers : Z
}.

(** What surrounds one run of [main]: [expand_cidr] (lines 90-92, library
    calls only), the local file system under [json.load], the machine behind
    every address, and the order in which the runs complete. *)
Record world := World {
  w_expand_cidr : option string → raises (list string);
  w_load_json : string → raises json;
  w_fleet : string → env * host;
  w_sched : list nat
}.

(** Lines 274-281. *)
Definition select_hosts (rt : PyRuntime) (net : IpLibrary) (w : world)
  (c : cli) : raises (list string) :=
  match cli_range c with
  | Some r =>
      if negb (String.eqb r "") then expand_range rt net r
      else w_expand_cidr w (cli_cidr c)
  | None => w_expand_cidr w (cli_cidr c)
  end.

(** Lines 283-292. *)
Definition load_new_pools (w : world) (c : cli) : raises (option json) :=
  match cli_set_pools_json c with
  | Some path =>
      if negb (String.eqb path "") then
        let* v := w_load_json w path in
        match v with
        | JArr _ => inr (Some v)
        | _ =>
            inl (Exn "ValueError"
                     "The new pools JSON must be an array/list of pool objects"
                     false)
        end
      else inr None
  | None => inr None
  end.

(** The arguments every [process_host] call of a run gets (lines 308-309). *)
Definition host_args (c : cli) (new_pools : option json) : args :=
  Args (cli_disable_url c) (cli_enable_url c) new_pools (cli_switch_pool c).

(** [main] (lines 255-341) without its printing: the exit status, and the
    variables of the collection loop when the loop ran.  The [ValueError] of
    line 306 is not caught: the interpreter prints it and exits with
    status 1. *)
Definition main (rt : PyRuntime) (net : IpLibrary) (w : world) (c : cli)
  : Z * option summary :=
  if negb (truthy (cli_disable_url c) || truthy (cli_enable_url c)
           || truthy (cli_set_pools_json c) || cli_switch_pool c)
  then (2, None)
  else
    match select_hosts rt net w c with
    | inl _ => (2, None)
    | inr hosts =>
        match load_new_pools w c with
        | inl _ => (2, None)
        | inr new_pools =>
            if (length hosts =? 0)%nat then (0, None)
            else
              match
                run_pool rt (host_args c new_pools)
                  (map (fun ip => Job ip (w_fleet w ip).1 (w_fleet w ip).2)
                       hosts)
                  (w_sched w) (cli_workers c)
              with
              | inl _ => (1, None)
              | inr s => (if (failed s =? 0)%nat then 0 else 1, Some s)
              end
        end
    end.

End Main.
Export Main.

(* ================================================================== *)
(** Shapes of documents the properties speak about. *)
Module Shape.

Definition is_dict (v : json) : bool :=
  match v with
  | JObj _ => true
  | _ => false
  end.

(** The entry is a dict whose ["url"] is the string [u]. *)
Definition has_url (u : string) (p : json) : bool :=
  match p with
  | JObj d => py_eq_str (py_get "url" d) u
  | _ => false
  end.

(** Python's [in] for one character. *)
Fixpoint has_char (c : ascii) (s : string) : bool :=
  match s with
  | EmptyString => false
  | String c' s' => Ascii.eqb c' c || has_char c s'
  end.

End Shape.
Export Shape.

(* ================================================================== *)
(** More of the surroundings for the examples: a runtime that also knows two
    texts that are not config objects, an address library for a few IPv4
    addresses, and a small fleet.  As in [Sample], each function is the
    library's on the inputs listed and raises elsewhere. *)
Module Demo.

Definition loads (s : string) : raises json :=
  if String.eqb s "[]" then inr (JArr [])
  else if String.eqb s "not json" then
    inl (Exn "JSONDecodeError" "Expecting value: line 1 column 1 (char 0)"
             false)
  else Sample.loads s.

Definition rt : PyRuntime :=
  Build_PyRuntime Sample.lower Sample.strip Sample.decode loads Sample.dumps.

(** Dotted-quad printing of an IPv4 address. *)
Definition octets (i : Z) : string :=
  pretty (i / 16777216) +:+ "." +:+ pretty ((i / 65536) `mod` 256) +:+ "."
  +:+ pretty ((i / 256) `mod` 256) +:+ "." +:+ pretty (i `mod` 256).

Definition format (i : Z) : raises string :=
  if (0 <=? i) && (i <? 4294967296) then inr (octets i)
  else inl (Exn "ValueError" "outside the demo" false).

Definition parse (s : string) : raises Z :=
  if String.eqb s "10.10.10.100" then inr 168430180
  else if String.eqb s "10.10.10.102" then inr 168430182
  else inl (Exn "ValueError"
                ("'" +:+ s +:+ "' does not appear to be an IPv4 or IPv6 address")
                false).

Definition net : IpLibrary := Build_IpLibrary parse format.

(** Every machine of the fleet answers, has an empty config object and no
    backups; the control port says [OK|]; one pools file exists. *)
Definition world : Main.world :=
  World (fun _ => inl (Exn "ValueError" "outside the demo" false))
        (fun path =>
           if String.eqb path "new_pools.json" then inr (JArr [])
           else inl (Exn "FileNotFoundError"
                         "[Errno 2] No such file or directory" true))
        (fun _ => (Sample.calm (inr (0, "OK|", "")), Sample.fresh_host))
        [].

(** [--range 10.10.10.100-10.10.10.102 --switch-pool], with the default
    worker count. *)
Definition switch_three : cli :=
  Cli (Some "10.10.10.100-10.10.10.102") None None None None true 10.

Definition lost_write : write_fault :=
  WriteFault (Exn "OSError" "Failure" true) (Some "").

Definition timed_out : exn := Exn "TimeoutError" "timed out" true.

End Demo.

(* ================================================================== *)
(** Vocabulary of the properties. *)
Module Notions.

(** What a [cp] of the live config leaves at a destination that did not
    exist: the config when the copy works, nothing when there is no live
    config or the destination could not be opened, a truncated copy when the
    copy stopped part-way. *)
Definition cp_leaves (failed : bool) (left : cp_left) (live : option string)
  : option string :=
  match live with
  | Some c =>
      if failed then
        match left with
        | Untouched => None
        | Truncated n => Some (String.substring 0 n c)
        end
      else Some c
  | None => None
  end.

(** What line 122 leaves in slot 5: nothing when [rm] works, the old slot 5
    when it fails. *)
Definition rm_leaves (f : faults) (pre : gmap string string)
  : option string :=
  match f_rm f with
  | None => None
  | Some _ => pre !! slot 5
  end.

(** What slot 5 holds once slot 4 has been handled: the old slot 4 when
    there was one, and otherwise what line 122 left. *)
Definition new_slot_5 (f : faults) (pre : gmap string string)
  : option string :=
  match pre !! slot 4 with
  | Some c => Some c
  | None => rm_leaves f pre
  end.

(** What a rotation whose commands all succeed so far has done: exact
    contents of the snapshot and of the slots handled. *)
Definition exact_inv (f : faults) (live : option string)
  (pre : gmap string string) (k : nat) (st : shstate) : Prop :=
  (sh_files st !! orig_name =
     if (3 <=? k)%nat then
       match pre !! orig_name with
       | Some c => Some c
       | None => cp_leaves (f_cp_orig f) (f_cp_orig_left f) live
       end
     else pre !! orig_name) ∧
  ((k ≤ 3)%nat → sh_files st !! slot 5 = pre !! slot 5) ∧
  ((k = 4)%nat → sh_files st !! slot 5 = rm_leaves f pre) ∧
  ((5 ≤ k ≤ 8)%nat → sh_files st !! slot (9 - k) = None) ∧
  (∀ i, (1 ≤ i ≤ 3)%nat → shifted k i = true →
        sh_files st !! slot (S i) = pre !! slot i) ∧
  (shifted k 4 = true → sh_files st !! slot 5 = new_slot_5 f pre) ∧
  ((k = 9)%nat →
   sh_files st !! slot 1 = cp_leaves (f_cp_slot f) (f_cp_slot_left f) live).

(** The five slots, newest first. *)
Definition slots (files : gmap string string) : list (option string) :=
  (fun i => files !! slot i) <$> [1; 2; 3; 4; 5]%nat.

(** No command of the run fails for an outside reason. *)
Definition fault_free (f : faults) : Prop :=
  f_mkdir f = None ∧ f_cd f = None ∧ f_cp_orig f = false ∧ f_rm f = None ∧
  (∀ i, f_mv f i = None) ∧ f_cp_slot f = false.

(** The state in which the outer [try] of [process_host] starts: the
    connection is up and nothing else has been done. *)
Definition connected (addr : string) (h : host) : state :=
  State (mkResult addr false false false "") false h [EvConnect].

(** The events of every run that reaches the write, up to the write. *)
Definition write_prefix : list event :=
  [EvConnect; EvResolve CONFIG_PATH_RAW; EvResolve BACKUP_DIR_RAW;
   EvRotate true; EvOpenSftp; EvReadConfig; EvWriteConfig].

End Notions.
Export Notions.

(* ================================================================== *)
(** * Properties *)

Section DictFacts.

Lemma dict_get_set_eq k v d : dict_get k (dict_set k v d) = Some v.
Proof.
  induction d as [|[k' v'] d IH]; simpl.
  - by rewrite String.eqb_refl.
  - destruct (String.eqb k k') eqn:E; simpl; rewrite E; [done | exact IH].
Qed.

Lemma dict_get_set_ne k k' v d :
  k ≠ k' → dict_get k' (dict_set k v d) = dict_get k' d.
Proof.
  intros Hne. induction d as [|[k0 v0] d IH]; simpl.
  - destruct (String.eqb k' k) eqn:E; [|done].
    apply String.eqb_eq in E. congruence.
  - destruct (String.eqb k k0) eqn:E; simpl.
    + apply String.eqb_eq in E. subst k0.
      destruct (String.eqb k' k) eqn:E'; [|done].
      apply String.eqb_eq in E'. congruence.
    + by rewrite IH.
Qed.

Lemma dict_set_same k v d : dict_get k d = Some v → dict_set k v d = d.
Proof.
  induction d as [|[k0 v0] d IH]; simpl; [done|].
  destruct (String.eqb k k0) eqn:E.
  - by intros [= ->].
  - intros H. by rewrite IH.
Qed.

(** Assigning to a key keeps the position of every key; a new key goes
    last. *)
Lemma dict_set_keys k v d :
  (dict_set k v d).*1 =
  (d.*1 ++ match dict_get k d with Some _ => [] | None => [k] end)%list.
Proof.
  induction d as [|[k0 v0] d IH]; [done|].
  cbn [dict_set dict_get]. destruct (String.eqb k k0) eqn:E.
  - rewrite !fmap_cons. cbn [fst]. by rewrite app_nil_r.
  - rewrite !fmap_cons, IH. done.
Qed.

Lemma py_get_set_eq k v d : py_get k (dict_set k v d) = v.
Proof. unfold py_get. by rewrite dict_get_set_eq. Qed.

Lemma py_get_set_ne k k' v d : k ≠ k' → py_get k' (dict_set k v d) = py_get k' d.
Proof. intros. unfold py_get. by rewrite dict_get_set_ne. Qed.

(** A value equals at most one integer. *)
Lemma py_eq_int_unique v a b :
  py_eq_int v a = true → a ≠ b → py_eq_int v b = false.
Proof.
  intros Ha Hne.
  destruct v as [|c|m|f| | |]; cbn [py_eq_int] in *; try done.
  - apply Z.eqb_eq in Ha. apply Z.eqb_neq. lia.
  - apply Z.eqb_eq in Ha. apply Z.eqb_neq. lia.
  - destruct f as [s|s| |s m e]; cbn [float_eq_int] in *; try done.
    + apply Z.eqb_eq in Ha. apply Z.eqb_neq. lia.
    + destruct (0 <=? e) eqn:Ee.
      * apply Z.eqb_eq in Ha. apply Z.eqb_neq. lia.
      * apply Z.leb_gt in Ee.
        apply Z.eqb_eq in Ha. apply Z.eqb_neq. intros Hb.
        assert (0 < 2 ^ (- e)) by (apply Z.pow_pos_nonneg; lia).
        apply Hne. nia.
Qed.

End DictFacts.

Section RmapFacts.
Context {A B : Type}.

Lemma rmap_Forall2 (f : A → raises B) l l' :
  rmap f l = inr l' → Forall2 (fun x y => f x = inr y) l l'.
Proof.
  revert l'. induction l as [|x l IH]; simpl; intros l'.
  - intros [= <-]. constructor.
  - unfold rbind. destruct (f x) as [e|y] eqn:Ex; [done|].
    destruct (rmap f l) as [e|ys]; [done|].
    intros [= <-]. constructor; auto.
Qed.

Lemma Forall2_rmap (f : A → raises B) l l' :
  Forall2 (fun x y => f x = inr y) l l' → rmap f l = inr l'.
Proof.
  induction 1 as [|x y l l' Hxy _ IH]; simpl; [done|].
  unfold rbind. by rewrite Hxy, IH.
Qed.

End RmapFacts.

Section PoolsFacts.

Lemma targets_set_disabled u v d :
  targets u (JObj (dict_set "disabled" v d)) = targets u (JObj d).
Proof.
  unfold targets. destruct u as [s|]; [|done].
  destruct (String.eqb s ""); [done|].
  cbn [method_get rbind]. by rewrite py_get_set_ne.
Qed.

Lemma set_disabled_inv flag p p' :
  set_disabled flag p = inr p' →
  ∃ d, p = JObj d ∧
       ((py_eq_int (py_get "disabled" d) flag = true ∧ p' = p) ∨
        (py_eq_int (py_get "disabled" d) flag = false ∧
         p' = JObj (dict_set "disabled" (JInt flag) d))).
Proof.
  unfold set_disabled. destruct p; try done. cbn [method_get rbind setitem].
  destruct (py_eq_int _ flag) eqn:E; cbn [negb]; intros [= <-]; eauto.
Qed.

Lemma update_entry_step du eu p p' :
  update_entry du eu p = inr p' → entry_step du eu p p'.
Proof.
  unfold update_entry, rbind.
  destruct (targets du p) as [|[]] eqn:Ed; [done| |].
  - intros (d & -> & [[_ ->]|[Hn ->]])%set_disabled_inv.
    + constructor.
    + by eapply step_disable.
  - destruct (targets eu p) as [|[]] eqn:Ee; [done| |].
    + intros (d & -> & [[_ ->]|[Hn ->]])%set_disabled_inv.
      * constructor.
      * by eapply step_enable.
    + intros [= <-]. constructor.
Qed.

Lemma set_disabled_done flag d :
  set_disabled flag (JObj (dict_set "disabled" (JInt flag) d))
  = inr (JObj (dict_set "disabled" (JInt flag) d)).
Proof.
  unfold set_disabled. cbn [method_get rbind].
  rewrite py_get_set_eq. cbn [py_eq_int]. by rewrite Z.eqb_refl.
Qed.

(** The loop body, run on its own result, changes nothing more. *)
Lemma update_entry_idem du eu p p' :
  update_entry du eu p = inr p' → update_entry du eu p' = inr p'.
Proof.
  intros H.
  destruct (update_entry_step _ _ _ _ H) as [|d Hp Hd _|d Hp Hd He _];
    try subst p.
  - done.
  - unfold update_entry. rewrite targets_set_disabled, Hd. cbn [rbind].
    apply set_disabled_done.
  - unfold update_entry. rewrite !targets_set_disabled, Hd, He. cbn [rbind].
    apply set_disabled_done.
Qed.

Lemma rmap_idem (f : json → raises json) l l' :
  (∀ x y, f x = inr y → f y = inr y) →
  rmap f l = inr l' → rmap f l' = inr l'.
Proof.
  intros Hf H%rmap_Forall2. apply Forall2_rmap.
  induction H; constructor; eauto.
Qed.

(** [update_pools_list] without a replacement list is idempotent, whatever
    the two targets are; when the first pass raises, so does the pair. *)
Lemma update_pools_list_idem pools du eu :
  (let* once := update_pools_list pools du eu None in
   update_pools_list once du eu None)
  = update_pools_list pools du eu None.
Proof.
  unfold update_pools_list at 1 3.
  destruct (py_iter pools) as [e|items] eqn:Hit; [done|]. cbn [rbind].
  destruct (rmap (update_entry du eu) items) as [e|items'] eqn:Hmap; [done|].
  destruct pools; try done; cbn [rbind];
    unfold update_pools_list; cbn [py_iter] in *; injection Hit as <-;
    cbn [rbind].
  - by rewrite Hmap.
  - by rewrite (rmap_idem _ _ _ (update_entry_idem du eu) Hmap).
  - by rewrite Hmap.
Qed.

End PoolsFacts.

Section PoolsClaims.

Lemma entry_step_frame du eu p p' : entry_step du eu p p' → entry_frame du eu p p'.
Proof.
  intros [|d Hp Hd Hn|d Hp Hd He Hn]; repeat split; try done; try congruence.
  - intros d ->. eauto.
  - intros k Hk. subst p. cbn [method_get]. by rewrite py_get_set_ne.
  - intros d0 ?. subst p. simplify_eq. eexists; split; [done|].
    intros k Hk. by rewrite dict_get_set_ne.
  - intros k Hk. subst p. cbn [method_get]. by rewrite py_get_set_ne.
  - intros d0 ?. subst p. simplify_eq. eexists; split; [done|].
    intros k Hk. by rewrite dict_get_set_ne.
Qed.

Lemma update_pools_list_arr ps du eu pools' :
  update_pools_list (JArr ps) du eu None = inr pools' →
  ∃ ps', pools' = JArr ps' ∧
         Forall2 (fun p p' => update_entry du eu p = inr p') ps ps'.
Proof.
  unfold update_pools_list. cbn [py_iter rbind].
  destruct (rmap _ ps) as [|ps'] eqn:E; [done|]. intros [= <-].
  eauto using rmap_Forall2.
Qed.

Lemma update_pools_list_other pools du eu pools' :
  update_pools_list pools du eu None = inr pools' →
  match pools with JArr _ => True | _ => pools' = pools end.
Proof.
  unfold update_pools_list. destruct pools; try done; cbn [py_iter rbind];
    destruct (rmap _ _); try done; by intros [= <-].
Qed.

(** C4. When a replacement list is supplied, [update_pools_list] returns
    exactly that list, whatever the existing pools and whatever disable and
    enable targets come with it; and the document [process_host] writes has
    it as its ["pools"] field. *)
Theorem C4_replace_bypass (existing replacement : json)
  (disable_url enable_url : option string) :
  update_pools_list existing disable_url enable_url (Some replacement)
  = inr replacement
  ∧ ∀ d : dict, ∃ d',
      update_config (JObj d) disable_url enable_url (Some replacement)
      = inr (JObj d')
      ∧ dict_get "pools" d' = Some replacement.
Proof.
  split; [done|]. intros d.
  unfold update_config. cbn [method_get method_get_default rbind
                             update_pools_list setitem].
  destruct (py_get "user" d); eexists; (split; [reflexivity|]);
    rewrite ?dict_get_set_ne by done; apply dict_get_set_eq.
Qed.

(** C5. For every pools value and every URL, running the Disable(url)
    update on its own result gives the same outcome as running it once, and
    likewise for Enable(url). *)
Theorem C5_idempotence (pools : json) (url : string) :
  (let* once := update_pools_list pools (Some url) None None in
   update_pools_list once (Some url) None None)
  = update_pools_list pools (Some url) None None
  ∧
  (let* once := update_pools_list pools None (Some url) None in
   update_pools_list once None (Some url) None)
  = update_pools_list pools None (Some url) None.
Proof. split; apply update_pools_list_idem. Qed.

(** C6. The update of a parsed document under disable and enable targets
    (no replacement list) keeps every top-level field other than ["pools"]
    (so ["user"] too) and the position of every top-level key; the pools
    list keeps its length and order, an entry that no target matches is
    unchanged, and a matching entry keeps every field other than
    ["disabled"]. *)
Theorem C6_field_preservation (config config' : json)
  (disable_url enable_url : option string) :
  update_config config disable_url enable_url None = inr config' →
  ∃ d d',
    config = JObj d ∧ config' = JObj d' ∧
    (∀ k, k ≠ "pools" → dict_get k d' = dict_get k d) ∧
    d'.*1 = (d.*1 ++ match dict_get "pools" d with
                     | Some _ => []
                     | None => ["pools"]
                     end)%list ∧
    ∃ pools',
      dict_get "pools" d' = Some pools' ∧
      match py_get_default "pools" (JArr []) d with
      | JArr ps =>
          ∃ ps', pools' = JArr ps' ∧
                 Forall2 (entry_frame disable_url enable_url) ps ps'
      | other => pools' = other
      end.
Proof.
  unfold update_config. destruct config as [| | | | | |d]; try done.
  cbn [method_get method_get_default rbind setitem].
  destruct (update_pools_list _ _ _ None) as [|pools'] eqn:Hup; [done|].
  cbn [rbind]. intros Hcfg. exists d.
  assert (∃ d', config' = JObj d' ∧
                (∀ k, k ≠ "user" → dict_get k d' =
                                   dict_get k (dict_set "pools" pools' d)) ∧
                dict_get "user" d' = dict_get "user" d ∧
                d'.*1 = (dict_set "pools" pools' d).*1)
    as (d' & -> & Hother & Huser & Hkeys).
  { unfold py_get in Hcfg.
    destruct (dict_get "user" d) as [u|] eqn:Hu.
    - assert (dict_set "user" u (dict_set "pools" pools' d)
              = dict_set "pools" pools' d) as Hsame.
      { apply dict_set_same. by rewrite dict_get_set_ne. }
      rewrite Hsame in Hcfg.
      exists (dict_set "pools" pools' d).
      repeat split; [by destruct u; simplify_eq|..].
      by rewrite dict_get_set_ne.
    - injection Hcfg as <-. eexists. repeat split.
      by rewrite dict_get_set_ne. }
  exists d'. repeat split.
  - intros k Hk. destruct (decide (k = "user")) as [->|Hne]; [done|].
    rewrite Hother by done. by rewrite dict_get_set_ne.
  - by rewrite Hkeys, dict_set_keys.
  - exists pools'. split.
    + rewrite Hother by done. apply dict_get_set_eq.
    + destruct (py_get_default "pools" (JArr []) d) as [| | | | |ps|] eqn:Hp;
        try (by apply update_pools_list_other in Hup).
      apply update_pools_list_arr in Hup as (ps' & -> & HF).
      exists ps'. split; [done|].
      eapply Forall2_impl; [exact HF|].
      intros p p' Hpp. by apply entry_step_frame, update_entry_step.
Qed.

(** C10. When the disable and the enable target are the same non-empty URL
    and an entry of the pools list has that URL, the entry is handled by the
    disable branch: afterwards its ["disabled"] field compares equal to 1
    and not to 0; it is the integer 1, unless the field already compared
    equal to 1, in which case the entry is left as it was. *)
Theorem C10_disable_wins (url : string) (ps : list json) (pools' : json)
  (i : nat) (d : dict) :
  url ≠ "" →
  update_pools_list (JArr ps) (Some url) (Some url) None = inr pools' →
  ps !! i = Some (JObj d) →
  py_get "url" d = JStr url →
  ∃ ps' d',
    pools' = JArr ps' ∧ ps' !! i = Some (JObj d') ∧
    py_eq_int (py_get "disabled" d') 1 = true ∧
    py_eq_int (py_get "disabled" d') 0 = false ∧
    (dict_get "disabled" d' = Some (JInt 1) ∨
     (d' = d ∧ py_eq_int (py_get "disabled" d) 1 = true)).
Proof.
  intros Hurl (ps' & -> & HF)%update_pools_list_arr Hi Hu.
  destruct (Forall2_lookup_l _ _ _ _ _ HF Hi) as (p' & Hi' & Hp').
  assert (targets (Some url) (JObj d) = inr true) as Ht.
  { unfold targets. apply String.eqb_neq in Hurl. rewrite Hurl.
    cbn [method_get rbind]. rewrite Hu. cbn [py_eq_str].
    by rewrite String.eqb_refl. }
  unfold update_entry in Hp'. rewrite Ht in Hp'. cbn [rbind] in Hp'.
  apply set_disabled_inv in Hp' as (d0 & [= <-] & [[He ->]|[He ->]]).
  - exists ps', d. repeat split; auto.
    by apply (py_eq_int_unique _ 1 0).
  - exists ps', (dict_set "disabled" (JInt 1) d).
    rewrite py_get_set_eq, dict_get_set_eq. repeat split; auto.
Qed.

End PoolsClaims.

Section BackupFacts.

(** A printed number is empty-free and starts with a digit. *)
Lemma pretty_N_go_head (x : N) (s : string) :
  pretty_N_go x s = s ∨
  ∃ d rest, pretty_N_go x s = String (pretty_N_char d) rest.
Proof.
  revert s. induction (N.lt_wf_0 x) as [x _ IH]; intros s.
  destruct (decide (x = 0)%N) as [->|Hx].
  - left. apply pretty_N_go_0.
  - rewrite pretty_N_go_step by lia.
    destruct (IH (x `div` 10)%N) with
      (s := String (pretty_N_char (x `mod` 10)) s) as [->|Hr].
    + apply N.div_lt; lia.
    + right. eauto.
    + by right.
Qed.

Lemma pretty_nat_not_orig (i : nat) : pretty i ≠ "orig".
Proof.
  unfold pretty, pretty_nat, pretty, pretty_N.
  case_decide; [done|].
  destruct (pretty_N_go_head (N.of_nat i) "") as [->|(d & rest & ->)]; [done|].
  unfold pretty_N_char. by repeat case_match.
Qed.

Lemma slot_inj i j : slot i = slot j → i = j.
Proof.
  unfold slot. intros H. apply (inj pretty).
  by repeat injection H as H.
Qed.

Lemma slot_not_orig i : slot i ≠ orig_name.
Proof.
  unfold slot, orig_name. intros H.
  apply (pretty_nat_not_orig i). by repeat injection H as H.
Qed.

End BackupFacts.

Section RotationInvariant.

Lemma run_script_steps (I F : nat → shstate → Prop) (cs : list cmd) :
  ∀ k st,
    I k st →
    (∀ j c st', cs !! j = Some c → I (k + j)%nat st' →
       ((c st').1 = 0 ∧ I (S (k + j)) (c st').2) ∨
       ((c st').1 ≠ 0 ∧ F (k + j)%nat (c st').2)) →
    ((run_script cs st).1 = 0 ∧ I (k + length cs)%nat (run_script cs st).2) ∨
    ((run_script cs st).1 ≠ 0 ∧
     ∃ j, (j < length cs)%nat ∧ F (k + j)%nat (run_script cs st).2).
Proof.
  induction cs as [|c cs IH]; intros k st HI Hstep.
  - left. cbn. rewrite Nat.add_0_r. done.
  - cbn [run_script].
    destruct (Hstep 0%nat c st eq_refl) as [[H0 HI']|[Hne HF]].
    { by rewrite Nat.add_0_r. }
    + destruct (c st) as [es st1]. cbn in H0, HI'. subst es. cbn [Z.eqb].
      rewrite Nat.add_0_r in HI'.
      destruct (IH (S k) st1 HI') as [[Hz HIz]|[Hnz (j & Hj & HFj)]].
      * intros j c' st' Hl HIj.
        replace (S k + j)%nat with (k + S j)%nat in * by lia.
        by apply (Hstep (S j)).
      * left. split; [done|].
        by replace (k + length (c :: cs))%nat with (S k + length cs)%nat
          by (cbn; lia).
      * right. split; [done|]. exists (S j). split; [cbn; lia|].
        by replace (k + S j)%nat with (S k + j)%nat by lia.
    + destruct (c st) as [es st1]. cbn in Hne, HF.
      destruct (es =? 0) eqn:E; [apply Z.eqb_eq in E; done|].
      right. split; [done|]. exists 0%nat. split; [cbn; lia|done].
Qed.

Lemma slot_ne i j : i ≠ j → slot i ≠ slot j.
Proof. intros Hne Heq. by apply Hne, slot_inj. Qed.

Lemma unmanaged_not_slot n i : ¬ managed n → (1 ≤ i ≤ 5)%nat → slot i ≠ n.
Proof. intros Hn Hi <-. apply Hn. right. eauto. Qed.

Lemma unmanaged_not_orig n : ¬ managed n → orig_name ≠ n.
Proof. intros Hn <-. apply Hn. by left. Qed.

End RotationInvariant.

Ltac name_ne :=
  solve [ apply slot_ne; lia
        | apply slot_not_orig
        | apply not_eq_sym, slot_not_orig
        | apply unmanaged_not_slot; [assumption | lia]
        | apply unmanaged_not_orig; assumption ].

Ltac map_look :=
  repeat first
    [ rewrite lookup_insert_eq
    | rewrite lookup_delete_eq
    | rewrite lookup_insert_ne by name_ne
    | rewrite lookup_delete_ne by name_ne ].

Ltac slot_cases :=
  match goal with
  | Hi : (1 ≤ ?i ≤ 4)%nat |- _ =>
      assert (i = 1 ∨ i = 2 ∨ i = 3 ∨ i = 4)%nat as [->|[->|[->| ->]]] by lia;
      clear Hi
  end.

Ltac inv_solve :=
  intros; cbn [fst snd sh_files sh_live sh_err fail_with] in *; try slot_cases;
  repeat match goal with
         | H : shifted _ _ = _ |- _ => vm_compute in H; try discriminate H; clear H
         end;
  repeat match goal with
         | H : is_Some _ |- _ => destruct H as [? H]
         end;
  cbn [Nat.add] in *; map_look;
  first [ done | lia | congruence | eauto with lia
        | exfalso; eauto with lia ].

Ltac shift_case f fs i Hpend :=
  let Hsame := fresh "Hsame" in
  let Hp := fresh "Hp" in
  let Ef := fresh "Ef" in
  let El := fresh "El" in
  unfold shift, test_f, mv; cbn [sh_files sh_live];
  pose proof (Hpend i ltac:(lia) eq_refl) as Hsame;
  case_bool_decide as Hp;
  [ destruct (f_mv f i) eqn:Ef;
    [ right; cbn [fst snd fail_with];
      split; [done|]; split; [|split; [by rewrite <- Hsame | congruence]]
    | destruct (fs !! slot i) eqn:El;
      [ left; split; [done|] | by destruct Hp as [? [=]] ] ]
  | apply eq_None_not_Some in Hp; left; split; [done|] ];
  repeat split; inv_solve.

Section RotationFacts.

(** One command of the script, run after the [j] before it have succeeded:
    it succeeds and the invariant moves on, or it stops the script, which
    only a fatal fault does. *)
Lemma rotation_step (f : faults) (live : option string)
  (pre : gmap string string) (j : nat) (c : cmd) (st : shstate) :
  rotation_script f !! j = Some c →
  inv f live pre j st →
  ((c st).1 = 0 ∧ inv f live pre (S j) (c st).2) ∨
  ((c st).1 ≠ 0 ∧ inv f live pre j (c st).2 ∧ fatal f pre j).
Proof.
  intros Hc (Hlive & Hframe & Horig & Hpend & Hshift & Hnew & Hmk & Hcd & Hmv).
  destruct st as [l fs er]. cbn [sh_live sh_files] in *. subst l.
  destruct j as [|[|[|[|[|[|[|[|[|j]]]]]]]]]; cbn in Hc; try done;
    injection Hc as <-.
  - (* mkdir *)
    unfold mkdir_p. destruct (f_mkdir f) eqn:E.
    + right. cbn. repeat split; inv_solve.
    + left. cbn. repeat split; inv_solve.
  - unfold Backup.cd. destruct (f_cd f) eqn:E.
    + right. cbn. repeat split; inv_solve.
    + left. cbn. repeat split; inv_solve.
  - (* orig *)
    left. unfold snapshot_orig, test_f, or_true, cp_live.
    cbn [sh_files sh_live].
    case_bool_decide as Ho; cbn [negb].
    + split; [done|]. repeat split; cbn [sh_files sh_live]; inv_solve.
    + split; [done|].
      assert (pre !! orig_name = None) as Hpo.
      { destruct (pre !! orig_name) eqn:E; [|done].
        destruct Ho. rewrite (Horig _ eq_refl). eauto. }
      destruct live as [c|];
        [destruct (f_cp_orig f); [destruct (f_cp_orig_left f)|]|];
        cbn [snd sh_files sh_live]; repeat split; inv_solve.
  - (* drop *)
    left. unfold drop_oldest, test_f, or_true, rm_f. cbn [sh_files sh_live].
    split; [done|].
    case_bool_decide as H5; [destruct (f_rm f)|];
      cbn [snd fail_with sh_files sh_live]; repeat split; inv_solve.
  - shift_case f fs 4%nat Hpend.
  - shift_case f fs 3%nat Hpend.
  - shift_case f fs 2%nat Hpend.
  - shift_case f fs 1%nat Hpend.
  - left. unfold copy_newest, or_true, cp_live. cbn [sh_files sh_live].
    split; [done|].
    destruct live as [c|];
      [destruct (f_cp_slot f) eqn:Ecp; [destruct (f_cp_slot_left f)|]|];
      repeat split; inv_solve.
Qed.


Lemma inv_start f live pre : inv f live pre 0 (ShState live pre "").
Proof. repeat split; inv_solve. Qed.

(** Any number of commands into a rotation: either all of them succeeded,
    or the script stopped at a fatal fault. *)
Lemma rotation_inv (n : nat) (f : faults) (live : option string)
  (pre : gmap string string) :
  let r := run_script (take n (rotation_script f)) (ShState live pre "") in
  (r.1 = 0 ∧ inv f live pre (n `min` 9) r.2) ∨
  (r.1 ≠ 0 ∧ ∃ j, (j < 9)%nat ∧ inv f live pre j r.2 ∧ fatal f pre j).
Proof.
  intros r.
  destruct (run_script_steps (inv f live pre)
              (fun j st => inv f live pre j st ∧ fatal f pre j)
              (take n (rotation_script f)) 0%nat (ShState live pre "")
              (inv_start f live pre)) as [[H0 HI]|[Hne (j & Hj & HI & HF)]].
  - intros j c st' [Hc _]%lookup_take_Some HI. cbn [Nat.add] in *.
    apply rotation_step; done.
  - left. split; [done|]. rewrite length_take in HI. exact HI.
  - right. split; [done|]. exists j. rewrite length_take in Hj.
    cbn [Nat.add] in *. split; [|done].
    change (length (rotation_script f)) with 9%nat in Hj. lia.
Qed.

Lemma rotate_upto_all f live files : rotate f live files = rotate_upto 9 f live files.
Proof. done. Qed.

(** Whatever the point reached, the state satisfies the invariant for some
    number of commands. *)
Lemma rotate_upto_inv n f live pre :
  ∃ k st, (rotate_upto n f live pre).2 = sh_files st ∧ inv f live pre k st.
Proof.
  unfold rotate_upto. cbn [snd].
  destruct (rotation_inv n f live pre) as [[_ HI]|[_ (j & _ & HI & _)]]; eauto.
Qed.

Lemma slot_unmanaged i : ¬ (1 ≤ i ≤ 5)%nat → ¬ managed (slot i).
Proof.
  intros Hi [Ho|(j & Hj & Hs)].
  - by apply slot_not_orig in Ho.
  - apply slot_inj in Hs. lia.
Qed.

Lemma rotate_upto_frame n f live pre name :
  ¬ managed name → (rotate_upto n f live pre).2 !! name = pre !! name.
Proof.
  intros Hn. destruct (rotate_upto_inv n f live pre) as (k & st & -> & HI).
  destruct HI as (_ & Hframe & _). auto.
Qed.

Lemma rotate_upto_orig n f live pre c :
  pre !! orig_name = Some c → (rotate_upto n f live pre).2 !! orig_name = Some c.
Proof.
  intros Hc. destruct (rotate_upto_inv n f live pre) as (k & st & -> & HI).
  destruct HI as (_ & _ & Horig & _). auto.
Qed.

Lemma rotate_upto_keeps n f live pre i c :
  (1 ≤ i ≤ 4)%nat → pre !! slot i = Some c →
  (rotate_upto n f live pre).2 !! slot i = Some c ∨
  (rotate_upto n f live pre).2 !! slot (S i) = Some c.
Proof.
  intros Hi Hc. destruct (rotate_upto_inv n f live pre) as (k & st & -> & HI).
  destruct HI as (_ & _ & _ & Hpend & Hshift & _).
  destruct (shifted k i) eqn:E.
  - right. eauto.
  - left. rewrite Hpend; done.
Qed.

Lemma rotate_shifts f live pre i c :
  (rotate f live pre).1 = 0 → (1 ≤ i ≤ 4)%nat → pre !! slot i = Some c →
  (rotate f live pre).2 !! slot (S i) = Some c.
Proof.
  rewrite rotate_upto_all. unfold rotate_upto. cbn [fst snd].
  intros H0 Hi Hc.
  destruct (rotation_inv 9 f live pre) as [[_ HI]|[Hne _]]; [|done].
  destruct HI as (_ & _ & _ & _ & Hshift & _).
  by apply Hshift.
Qed.

Lemma rotations_frame rs files name :
  ¬ managed name → rotations rs files !! name = files !! name.
Proof.
  intros Hn. revert files. induction rs as [|[f live] rs IH]; intros files.
  - done.
  - cbn [rotations]. rewrite IH, rotate_upto_all. by apply rotate_upto_frame.
Qed.

Lemma rotations_orig rs files c :
  files !! orig_name = Some c → rotations rs files !! orig_name = Some c.
Proof.
  revert files. induction rs as [|[f live] rs IH]; intros files Hc.
  - done.
  - cbn [rotations]. apply IH. rewrite rotate_upto_all.
    by apply rotate_upto_orig.
Qed.

End RotationFacts.

Ltac ex_solve :=
  intros; cbn [fst snd sh_files sh_live sh_err fail_with] in *;
  try slot_cases;
  try match goal with
      | Hi : (1 ≤ ?i ≤ 3)%nat |- _ =>
          assert (i = 1 ∨ i = 2 ∨ i = 3)%nat as [->|[->| ->]] by lia;
          clear Hi
      end;
  repeat match goal with
         | H : shifted _ _ = _ |- _ =>
             vm_compute in H; try discriminate H; clear H
         end;
  cbn [Nat.add Nat.sub Nat.leb] in *; map_look;
  first [ done | lia | congruence | eauto with lia ].

Ltac shift_exact f fs i Hpend Efront :=
  let Hsame := fresh "Hsame" in
  let Hfr := fresh "Hfr" in
  let Hp := fresh "Hp" in
  let El := fresh "El" in
  unfold shift, test_f, mv; cbn [sh_files sh_live];
  pose proof (Hpend i ltac:(lia) eq_refl) as Hsame;
  pose proof (Efront ltac:(lia)) as Hfr; cbn [Nat.sub] in Hfr;
  case_bool_decide as Hp;
  [ destruct (f_mv f i);
    [ by cbn [fst fail_with]
    | destruct (fs !! slot i) eqn:El;
      [ intros _ | by destruct Hp as [? [=]] ] ]
  | apply eq_None_not_Some in Hp; intros _ ];
  repeat split; ex_solve.

Section RotationExact.

Lemma exact_step (f : faults) (live : option string)
  (pre : gmap string string) (j : nat) (c : cmd) (st : shstate) :
  rotation_script f !! j = Some c →
  inv f live pre j st → exact_inv f live pre j st →
  (c st).1 = 0 → exact_inv f live pre (S j) (c st).2.
Proof.
  intros Hc (Hlive & Hframe & Horig & Hpend & Hshift & Hnew & Hmk & Hcd & Hmv)
         (Eorig & Eold & Erm & Efront & Eshift & Efive & Enew).
  destruct st as [l fs er]. cbn [sh_live sh_files] in *. subst l.
  destruct j as [|[|[|[|[|[|[|[|[|j]]]]]]]]]; cbn in Hc; try done;
    injection Hc as <-.
  - unfold mkdir_p. destruct (f_mkdir f); [done|]. intros _.
    repeat split; ex_solve.
  - unfold Backup.cd. destruct (f_cd f); [done|]. intros _.
    repeat split; ex_solve.
  - intros _. unfold snapshot_orig, test_f, or_true, cp_live, cp_leaves.
    cbn [sh_files sh_live Nat.leb] in *.
    case_bool_decide as Ho; cbn [negb].
    + destruct Ho as [c Ho]. rewrite Ho in Eorig.
      repeat split; try solve [ex_solve].
      cbn [snd sh_files Nat.leb]. by rewrite <- Eorig.
    + apply eq_None_not_Some in Ho. rewrite Ho in Eorig.
      destruct live as [c|];
        [destruct (f_cp_orig f) eqn:Ecp;
         [destruct (f_cp_orig_left f) eqn:El|]|];
        cbn [snd sh_files sh_live]; repeat split; try solve [ex_solve];
        cbn [Nat.leb sh_files]; rewrite <- Eorig; unfold cp_leaves;
        rewrite ?Ecp, ?El; map_look; done.
  - intros _. unfold drop_oldest, test_f, or_true, rm_f, rm_leaves.
    cbn [sh_files sh_live Nat.leb] in *.
    pose proof (Eold ltac:(lia)) as E5.
    case_bool_decide as H5; [|apply eq_None_not_Some in H5];
      destruct (f_rm f) eqn:Erf; cbn [snd sh_files sh_live fail_with];
      repeat split; try solve [ex_solve];
      intros _; cbn [sh_files]; unfold rm_leaves; rewrite Erf; map_look;
      congruence.
  - pose proof (Erm eq_refl) as E5. cbn [sh_files] in E5.
    unfold shift, test_f, mv; cbn [sh_files sh_live].
    pose proof (Hpend 4%nat ltac:(lia) eq_refl) as Hsame.
    case_bool_decide as Hp;
      [ destruct (f_mv f 4%nat);
        [ by cbn [fst fail_with]
        | destruct (fs !! slot 4) eqn:El;
          [ intros _ | by destruct Hp as [? [=]] ] ]
      | apply eq_None_not_Some in Hp; intros _ ];
      repeat split; try solve [ex_solve];
      intros _; cbn [snd sh_files]; unfold new_slot_5; rewrite <- Hsame;
      map_look; by rewrite ?Hp.
  - shift_exact f fs 3%nat Hpend Efront.
  - shift_exact f fs 2%nat Hpend Efront.
  - shift_exact f fs 1%nat Hpend Efront.
  - intros _. unfold copy_newest, or_true, cp_live, cp_leaves.
    cbn [sh_files sh_live].
    pose proof (Efront ltac:(lia)) as E1. cbn [Nat.sub] in E1.
    destruct live as [c|];
      [destruct (f_cp_slot f) eqn:Ecp;
       [destruct (f_cp_slot_left f) eqn:El|]|];
      cbn [snd sh_files sh_live]; repeat split; try solve [ex_solve];
      intros _; cbn [sh_files]; unfold cp_leaves; rewrite ?Ecp, ?El;
      map_look; done.
Qed.

Lemma exact_start f live pre : exact_inv f live pre 0 (ShState live pre "").
Proof. repeat split; ex_solve. Qed.

(** A rotation that exits with status 0. *)
Lemma rotation_exact (f : faults) (live : option string)
  (pre : gmap string string) :
  let r := run_script (rotation_script f) (ShState live pre "") in
  r.1 = 0 → exact_inv f live pre 9 r.2.
Proof.
  intros r Hr.
  destruct (run_script_steps
              (fun k st => inv f live pre k st ∧ exact_inv f live pre k st)
              (fun _ _ => True)
              (rotation_script f) 0%nat (ShState live pre "")
              (conj (inv_start f live pre) (exact_start f live pre)))
    as [[_ [_ HE]]|[Hne _]]; [|exact HE|done].
  intros j c st' Hc [HI HE]. cbn [Nat.add] in *.
  destruct (rotation_step f live pre j c st' Hc HI) as [[H0 HI']|[Hne _]].
  - left. split; [done|]. split; [done|]. by eapply exact_step.
  - by right.
Qed.

End RotationExact.

Section BackupClaims.

Lemma rotations_app rs1 rs2 files :
  rotations (rs1 ++ rs2) files = rotations rs2 (rotations rs1 files).
Proof.
  revert files. induction rs1 as [|[f live] rs1 IH]; intros files; [done|].
  cbn [app rotations]. apply IH.
Qed.

(** The slots of a rotation that exits with status 0. *)
Lemma rotate_contents f live pre :
  (rotate f live pre).1 = 0 →
  (∀ i, (1 ≤ i ≤ 3)%nat →
        (rotate f live pre).2 !! slot (S i) = pre !! slot i) ∧
  (rotate f live pre).2 !! slot 5 = new_slot_5 f pre ∧
  (rotate f live pre).2 !! slot 1
  = cp_leaves (f_cp_slot f) (f_cp_slot_left f) live ∧
  (rotate f live pre).2 !! orig_name =
    match pre !! orig_name with
    | Some c => Some c
    | None => cp_leaves (f_cp_orig f) (f_cp_orig_left f) live
    end.
Proof.
  intros H0. unfold rotate in *. cbn [fst snd] in *.
  destruct (rotation_exact f live pre H0)
    as (Eorig & _ & _ & _ & Eshift & Efive & Enew).
  split; [|split; [|split]].
  - intros i Hi. by apply Eshift.
  - by apply Efive.
  - by apply Enew.
  - exact Eorig.
Qed.

Lemma make_remote_backup_rotate rt f live files :
  (make_remote_backup rt f live files).1.1 = ((rotate f live files).1 =? 0) ∧
  (make_remote_backup rt f live files).2 = (rotate f live files).2.
Proof.
  unfold make_remote_backup, rotate.
  by destruct (run_script _ _) as [es st].
Qed.

(** C2, as the script has it.  A rotation that reports success has copied
    the live config into slot 1 whenever the last [cp] itself succeeded
    (the live config exists and the copy meets no fault).  The rotation
    reports failure exactly when [mkdir], [cd] or the [mv] of an existing
    slot fails; a failing [cp] (to the original snapshot or to slot 1) or
    [rm] leaves the exit status at zero. *)
Theorem C2_rotation_success (rt : PyRuntime) (f : faults)
  (live : option string) (files : gmap string string) :
  let ok := (make_remote_backup rt f live files).1.1 in
  let files' := (make_remote_backup rt f live files).2 in
  (ok = true → ∀ c, live = Some c → f_cp_slot f = false →
               files' !! slot 1 = Some c) ∧
  (ok = true ↔
   f_mkdir f = None ∧ f_cd f = None ∧
   ∀ i, (1 ≤ i ≤ 4)%nat → is_Some (files !! slot i) → f_mv f i = None).
Proof.
  intros ok files'.
  destruct (make_remote_backup_rotate rt f live files) as [Hok Hfiles].
  fold ok in Hok. fold files' in Hfiles. rewrite Hok, Hfiles.
  rewrite rotate_upto_all. unfold rotate_upto. cbn [fst snd].
  destruct (rotation_inv 9 f live files)
    as [[H0 HI]|[Hne (j & Hj & HI & HF)]].
  - rewrite H0. cbn [Z.eqb].
    destruct HI as (_ & _ & _ & _ & _ & Hnew & Hmk & Hcd & Hmv).
    split; [intros _; by apply Hnew|].
    split; [intros _|done].
    repeat split; [apply Hmk; cbn; lia|apply Hcd; cbn; lia|].
    intros i Hi Hs. by apply Hmv.
  - apply Z.eqb_neq in Hne. rewrite Hne.
    split; [done|]. split; [done|]. intros (Hmk & Hcd & Hmv). exfalso.
    destruct j as [|[|[|[|[|[|[|[|j]]]]]]]]; cbn in HF; try done;
      destruct HF as [Hs Hf]; apply Hf, Hmv; (lia || done).
Qed.

(** C2 fails as stated: on a host whose backup directory is empty and not
    writable, both [cp] commands fail, the script still exits with status 0
    and the rotation reports success, and no slot 1 exists although the
    live config does. *)
Lemma C2_tolerated_copy_failure :
  let f := Faults None None true None (fun _ => None) true
             Untouched Untouched in
  let r := make_remote_backup Sample.rt f (Some "{}") ∅ in
  r.1.1 = true ∧ r.2 !! slot 1 = None.
Proof. vm_compute. split; reflexivity. Qed.

(** C8, as the script has it.  Any number of rotations, then any number of
    commands into one more ([now]), from any backup directory [files0].
    The bound: a numbered slot present now is one of slots 1 to 5 or was
    there at the start, so at most five numbered slots have been added, and
    at most five exist when the start had none outside 1 to 5.  The
    snapshot: the only file that is not a numbered slot and that the
    rotations may have created is [config.json.orig]; every file besides it
    and slots 1 to 5 is untouched; a snapshot present after any of the
    rotations is still there unchanged.  The slots: what slots 1 to 4 held
    before the current rotation is still in the same slot or in the next
    one.  A rotation that exits with status 0 ([after]): slots 2 to 4 hold
    what slots 1 to 3 held; slot 5 holds what slot 4 held (nothing when
    there was no slot 4), so the old slot 5 is gone, whenever there was a
    slot 4 or [rm] worked; when there was no slot 4 and [rm] failed, the old
    slot 5 stays; the snapshot is the old one, or else what the first [cp]
    left. *)
Theorem C8_backup_bound (rs : list (faults * option string)) (f : faults)
  (live : option string) (n : nat) (files0 : gmap string string) :
  let before := rotations rs files0 in
  let now := (rotate_upto n f live before).2 in
  let after := rotate f live before in
  (∀ i, is_Some (now !! slot i) →
        (1 ≤ i ≤ 5)%nat ∨ is_Some (files0 !! slot i)) ∧
  (∀ l : list nat,
     NoDup l →
     Forall (fun i => is_Some (now !! slot i) ∧ files0 !! slot i = None) l →
     (length l ≤ 5)%nat) ∧
  ((∀ i, is_Some (files0 !! slot i) → (1 ≤ i ≤ 5)%nat) →
   ∀ l : list nat,
     NoDup l → Forall (fun i => is_Some (now !! slot i)) l →
     (length l ≤ 5)%nat) ∧
  (∀ name, is_Some (now !! name) → (∀ i, name ≠ slot i) →
           name = orig_name ∨ is_Some (files0 !! name)) ∧
  (∀ name, ¬ managed name → now !! name = files0 !! name) ∧
  (∀ rs1 rs2 c, rs = (rs1 ++ rs2)%list →
                rotations rs1 files0 !! orig_name = Some c →
                now !! orig_name = Some c) ∧
  (∀ i c, (1 ≤ i ≤ 4)%nat → before !! slot i = Some c →
          now !! slot i = Some c ∨ now !! slot (S i) = Some c) ∧
  (after.1 = 0 →
   (∀ i, (1 ≤ i ≤ 3)%nat → after.2 !! slot (S i) = before !! slot i) ∧
   (is_Some (before !! slot 4) ∨ f_rm f = None →
    after.2 !! slot 5 = before !! slot 4) ∧
   (before !! slot 4 = None → f_rm f ≠ None →
    after.2 !! slot 5 = before !! slot 5) ∧
   after.2 !! orig_name =
     match before !! orig_name with
     | Some c => Some c
     | None => cp_leaves (f_cp_orig f) (f_cp_orig_left f) live
     end).
Proof.
  intros before now after.
  assert (∀ i, is_Some (now !! slot i) →
               (1 ≤ i ≤ 5)%nat ∨ is_Some (files0 !! slot i)) as Hslots.
  { intros i Hi. destruct (decide (1 ≤ i ≤ 5)%nat) as [|Hout]; [by left|].
    right. apply slot_unmanaged in Hout.
    unfold now, before in Hi.
    by rewrite rotate_upto_frame, rotations_frame in Hi. }
  assert (∀ name, ¬ managed name → now !! name = files0 !! name) as Hframe.
  { intros name Hn. unfold now, before.
    by rewrite rotate_upto_frame, rotations_frame. }
  split; [exact Hslots|].
  split; [|split; [|split; [|split; [|split; [|split]]]]].
  - intros l Hnd Hl.
    assert (l ⊆+ seq 1 5) as Hsub.
    { apply NoDup_submseteq; [done|]. intros i Hi.
      rewrite Forall_forall in Hl. destruct (Hl i Hi) as [Hnow Hnone].
      destruct (Hslots i Hnow) as [Hr|[? Hs]]; [|congruence].
      apply elem_of_seq. lia. }
    apply submseteq_length in Hsub. by rewrite length_seq in Hsub.
  - intros Hstart l Hnd Hl.
    assert (l ⊆+ seq 1 5) as Hsub.
    { apply NoDup_submseteq; [done|]. intros i Hi.
      rewrite Forall_forall in Hl.
      destruct (Hslots i (Hl i Hi)) as [Hr|Hs%Hstart];
        apply elem_of_seq; lia. }
    apply submseteq_length in Hsub. by rewrite length_seq in Hsub.
  - intros name Hnow Hslot.
    destruct (decide (name = orig_name)) as [|Hno]; [by left|]. right.
    rewrite <- Hframe; [done|].
    intros [Ho|(i & _ & Hi)]; [done|]. by apply (Hslot i).
  - exact Hframe.
  - intros rs1 rs2 c Hrs Hc. unfold now, before. rewrite Hrs, rotations_app.
    by apply rotate_upto_orig, rotations_orig.
  - intros i c Hi Hc. by apply rotate_upto_keeps.
  - intros H0.
    destruct (rotate_contents f live before H0) as (Hs & H5 & _ & Ho).
    fold after in Hs, H5, Ho.
    split; [exact Hs|]. split; [|split; [|exact Ho]].
    + rewrite H5. unfold new_slot_5, rm_leaves.
      intros [[c Hc]| ->]; [by rewrite Hc|]. by destruct (before !! slot 4).
    + rewrite H5. unfold new_slot_5, rm_leaves. intros -> Hrm.
      by destruct (f_rm f).
Qed.

(** C8 fails as stated: a rotation that reports success may keep the old
    slot 5.  On a host whose backup directory holds only a slot 5 and is not
    writable, [rm] and both [cp] fail and the script still exits with
    status 0.  When only the [rm] fails (the file cannot be removed, the
    directory can be written), a new slot 1 is rotated in and the old slot 5
    is still there. *)
Lemma C8_kept_slot_5 :
  let locked :=
    Faults None None true
      (Some (Fault 1 "rm: cannot remove 'config.json.5': Permission denied"))
      (fun _ => None) true Untouched Untouched in
  let pinned :=
    Faults None None false
      (Some (Fault 1
               "rm: cannot remove 'config.json.5': Operation not permitted"))
      (fun _ => None) false Untouched Untouched in
  let dir : gmap string string := <[slot 5 := "old"]> ∅ in
  let r := make_remote_backup Sample.rt locked (Some "{}") dir in
  let r' := make_remote_backup Sample.rt pinned (Some "{}") dir in
  (r.1.1 = true ∧ r.2 !! slot 5 = Some "old") ∧
  (r'.1.1 = true ∧ r'.2 !! slot 1 = Some "{}" ∧ r'.2 !! slot 5 = Some "old").
Proof. vm_compute. repeat split; reflexivity. Qed.

End BackupClaims.

Ltac wf_simpl :=
  cbn [result sftp remote trace Workflow.ip success updated switched msg fst snd
       live backups app negb
       e_init e_connect e_resolve_config e_resolve_backup e_rotate_exec
       e_faults e_open_sftp e_read e_write e_switch].

Ltac wf_simpl_in E :=
  cbn [result sftp remote trace Workflow.ip success updated switched msg fst snd
       live backups app negb
       e_init e_connect e_resolve_config e_resolve_backup e_rotate_exec
       e_faults e_open_sftp e_read e_write e_switch] in E.

Ltac run_host :=
  cbv [process_host run connect guarded update_stage backup_stage read_stage
       parse_stage write_stage switch_stage resolve_remote_path unhandled
       finalizer try_except try_finally Workflow.bind pure raise return_result
       lift may_raise emit get_result get_remote set_result set_remote
       set_sftp set_msg set_updated set_switched set_success
       except_Exception except_IOError CONFIG_PATH_RAW BACKUP_DIR_RAW
       String.prefix Ascii.eqb Bool.eqb];
  wf_simpl.

Ltac app_head t :=
  lazymatch t with
  | ?f _ => app_head f
  | _ => t
  end.

Ltac scrutinee t :=
  let h := app_head t in
  lazymatch h with
  | match ?x with _ => _ end => scrutinee x
  | _ => t
  end.

Ltac step E :=
  lazymatch type of E with
  | (_, _) = _ => fail
  | ?X = _ =>
      let x := scrutinee X in
      let H := fresh "Hpath" in
      destruct x eqn:H; wf_simpl_in E
  end.

Ltac mem_inv H :=
  repeat (apply elem_of_cons in H as [H|H];
          [try discriminate H; try (injection H as H); subst|]);
  try (by apply elem_of_nil in H).

Ltac not_mem :=
  rewrite ?not_elem_of_cons; repeat split; try discriminate;
  try apply not_elem_of_nil.

Ltac mem :=
  repeat first [apply list_elem_of_here | apply list_elem_of_further].

(** Every path through [run]: unfold it, follow the scrutinee that is
    evaluated first, and read the final state off each path. *)
Ltac run_paths E :=
  unfold initial; run_host; intros E; repeat step E;
  injection E as <- <-; wf_simpl.


Section RunFacts.
Context (rt : PyRuntime) (e : env) (a : args) (addr : string) (h : host).
Context (x : exit + unit) (sf : state).
Hypothesis Hrun : run rt e a (initial addr h) = (x, sf).

Lemma run_ip : Workflow.ip (result sf) = addr.
Proof using Hrun.
  revert Hrun. destruct e. run_paths E; reflexivity.
Qed.

(** Unless the catch-all handler ran, [success] is [updated or switched]:
    the early returns leave all three flags [False]. *)
Lemma run_success_or :
  (∀ y, EvUnhandled y ∉ trace sf) →
  success (result sf) = updated (result sf) || switched (result sf).
Proof using Hrun.
  revert Hrun. destruct e. run_paths E; try reflexivity.
  all: intros Hy; exfalso; eapply Hy; mem.
Qed.

(** When the catch-all handler runs, line 236 has not been reached. *)
Lemma run_unhandled y :
  EvUnhandled y ∈ trace sf →
  success (result sf) = false ∧
  msg (result sf) = "Unhandled error: " +:+ describe y.
Proof using Hrun.
  revert Hrun. destruct e. run_paths E; intros Hy; mem_inv Hy; done.
Qed.

(** The status logged for the rotation is the one [make_remote_backup]
    returned, on the host as it was at the start; the rotation only runs
    when a mutation is requested. *)
Lemma run_rotate ok :
  EvRotate ok ∈ trace sf →
  mutation_requested a = true ∧
  (make_remote_backup rt (e_faults e) (live h) (backups h)).1.1 = ok.
Proof using Hrun.
  revert Hrun. destruct e. run_paths E; intros Hy; mem_inv Hy; done.
Qed.

(** After a rotation that reported failure nothing else happens. *)
Lemma run_rotate_failed :
  EvRotate false ∈ trace sf →
  success (result sf) = false ∧ updated (result sf) = false ∧
  switched (result sf) = false ∧
  msg (result sf) =
    "backup failed: "
    +:+ (make_remote_backup rt (e_faults e) (live h) (backups h)).1.2 ∧
  (EvOpenSftp ∉ trace sf) ∧ (EvReadConfig ∉ trace sf) ∧
  (EvWriteConfig ∉ trace sf) ∧ (EvSwitchpool ∉ trace sf) ∧
  live (remote sf) = live h.
Proof using Hrun.
  revert Hrun. destruct e. run_paths E; intros Hy; mem_inv Hy.
  all: try match goal with H : negb false = false |- _ => discriminate H end.
  all: repeat split; try done; not_mem.
Qed.

(** The rotation does run, and its failure is logged, whenever a mutation
    is requested, the session is up and the script exits with a non-zero
    status. *)
Lemma run_rotate_logged :
  e_connect e = None → e_resolve_config e = None →
  e_resolve_backup e = None → e_rotate_exec e = None →
  mutation_requested a = true →
  (make_remote_backup rt (e_faults e) (live h) (backups h)).1.1 = false →
  EvRotate false ∈ trace sf.
Proof using Hrun.
  revert Hrun. destruct e. cbn [e_connect e_resolve_config e_resolve_backup
                                e_rotate_exec e_faults].
  run_paths E; intros; simplify_eq/=; mem.
Qed.

(** Only the write stage changes the live config. *)
Lemma run_live_unwritten :
  EvWriteConfig ∉ trace sf → live (remote sf) = live h.
Proof using Hrun.
  revert Hrun. destruct e. run_paths E; try reflexivity.
  all: intros Hy; exfalso; apply Hy; mem.
Qed.

(** Without a mutation request the update stage is skipped. *)
Lemma run_no_mutation :
  mutation_requested a = false →
  updated (result sf) = false ∧ remote sf = h ∧
  (∀ ok, EvRotate ok ∉ trace sf) ∧
  (EvReadConfig ∉ trace sf) ∧ (EvWriteConfig ∉ trace sf).
Proof using Hrun.
  revert Hrun. destruct e. run_paths E; intros Hm; try congruence.
  all: destruct h; repeat split; try done.
  all: lazymatch goal with
       | |- ∀ _ : bool, _ => intro
       | _ => idtac
       end; not_mem.
Qed.

End RunFacts.

Section SwitchFacts.

Lemma prefix_app n h : String.prefix n h = true ↔ ∃ post, h = n +:+ post.
Proof.
  revert h. induction n as [|c n IH]; intros h.
  - destruct h; (split; [intros _; by eexists|done]).
  - destruct h as [|c' h]; cbn [String.prefix].
    + split; [done|]. by intros [post [=]].
    + destruct (ascii_dec c c') as [->|Hne].
      * rewrite IH. split; intros [post Hp]; exists post.
        -- cbn. by rewrite Hp.
        -- cbn in Hp. by injection Hp.
      * split; [done|]. intros [post Hp]. simpl in Hp.
        injection Hp as Hc _. by destruct Hne.
Qed.

(** [str_contains] is the substring test: the needle may start anywhere. *)
Lemma str_contains_spec n h :
  str_contains n h = true ↔ ∃ pre post, h = pre +:+ n +:+ post.
Proof.
  induction h as [|c h IH]; cbn [str_contains].
  - rewrite orb_false_r, prefix_app. split.
    + intros [post Hp]. by exists "", post.
    + intros (pre & post & Hp). destruct pre; [by exists post|done].
  - rewrite orb_true_iff, prefix_app, IH. split.
    + intros [[post Hp]|(pre & post & Hp)].
      * by exists "", post.
      * exists (String c pre), post. cbn. by rewrite Hp.
    + intros (pre & post & Hp). destruct pre as [|c' pre].
      * left. by exists post.
      * right. cbn in Hp. injection Hp as _ Hp. by exists pre, post.
Qed.

(** C3, as the script has it.  The switch trigger reports success exactly
    when the lower-cased output followed by the error text contains the
    marker [ok|] anywhere, at the start of a line or not; the message is
    then ["switchpool ok"].  Otherwise the message is the lower-cased reply
    with surrounding whitespace stripped, or the exit status when nothing is
    left of it. *)
Theorem C3_switch_marker (rt : PyRuntime) (es : Z) (out err : string) :
  let combined := str_lower rt (out +:+ err) in
  let r := remote_send_switchpool rt (es, out, err) in
  (r.1 = true ↔ ∃ pre post, combined = pre +:+ "ok|" +:+ post) ∧
  (r.1 = true → r.2 = "switchpool ok") ∧
  (r.1 = false →
   r.2 = if String.eqb (str_strip rt combined) ""
         then "exit_status=" +:+ pretty es
         else str_strip rt combined).
Proof.
  intros combined r. subst r. unfold remote_send_switchpool. fold combined.
  rewrite <- str_contains_spec.
  destruct (str_contains "ok|" combined); cbn [fst snd]; by repeat split.
Qed.

(** C3 fails as stated: a reply whose only line has the marker in the
    middle is taken as success, although no line begins with the marker. *)
Lemma C3_marker_mid_line :
  (remote_send_switchpool Sample.rt (0, "reply: OK|", "")).1 = true ∧
  spec_line_begins_with_ok (Sample.lower "reply: OK|") = false.
Proof. vm_compute. split; reflexivity. Qed.

End SwitchFacts.

Section HandlerFacts.

(** The body of the outer [try] sets [success] last: when it raises, the
    flag and the address are as it found them. *)
Lemma guarded_raised rt e a s y s' :
  guarded rt e a s = (inl (Raised y), s') →
  success (result s') = success (result s) ∧
  Workflow.ip (result s') = Workflow.ip (result s).
Proof.
  destruct e, s as [[] ? ? ?].
  cbv [guarded update_stage backup_stage read_stage
       parse_stage write_stage switch_stage resolve_remote_path
       try_except Workflow.bind pure raise return_result
       lift may_raise emit get_result get_remote set_result set_remote
       set_sftp set_msg set_updated set_switched set_success
       except_Exception except_IOError CONFIG_PATH_RAW BACKUP_DIR_RAW
       String.prefix Ascii.eqb Bool.eqb];
  wf_simpl.
  intros E; repeat step E; try discriminate E;
    injection E as <- <-; wf_simpl; done.
Qed.

(** A run whose connection is up and whose outer [try] body raises: the
    catch-all handler sets the message, and the result is returned with
    [success] false. *)
Lemma process_host_unhandled rt e a addr h y s' :
  e_init e = None → e_connect e = None →
  guarded rt e a (connected addr h) = (inl (Raised y), s') →
  process_host rt e a addr h
  = (inr (mkResult addr false (updated (result s')) (switched (result s'))
            ("Unhandled error: " +:+ describe y)),
     remote s',
     (trace s' ++ [EvUnhandled y]
      ++ (if sftp s' then [EvCloseSftp] else []) ++ [EvClose])%list).
Proof.
  intros Hi Hc Hg.
  destruct (guarded_raised _ _ _ _ _ _ Hg) as [Hs Hip].
  unfold process_host, run, connect, initial. rewrite Hi, Hc.
  cbv [try_except try_finally Workflow.bind emit may_raise pure]. wf_simpl.
  fold (connected addr h). rewrite Hg. cbn [except_Exception].
  cbv [unhandled finalizer Workflow.bind emit set_msg get_result set_result].
  wf_simpl. cbn in Hs, Hip. rewrite Hs, Hip.
  by rewrite <- !app_assoc.
Qed.

End HandlerFacts.

Section WorkflowClaims.

Lemma process_host_run rt e a addr h r h' tr :
  process_host rt e a addr h = (inr r, h', tr) →
  ∃ x sf, run rt e a (initial addr h) = (x, sf) ∧
          r = result sf ∧ h' = remote sf ∧ tr = trace sf.
Proof.
  unfold process_host. destruct (e_init e); [done|].
  destruct (run rt e a (initial addr h)) as [x sf] eqn:E.
  cbn [snd]. intros [= <- <- <-]. by exists x, sf.
Qed.

(** C1. When the rotation of a run reports failure, a mutation was
    requested and the script exited with a non-zero status; the result has
    [success], [updated] and [switched] false and the message
    ["backup failed: "] followed by what the script printed; the run neither
    reads nor writes the live config, nor sends the switch command, and the
    live config is afterwards what it was before. *)
Theorem C1_backup_before_mutate (rt : PyRuntime) (e : env) (a : args)
  (addr : string) (h h' : host) (r : HostResult) (tr : list event) :
  process_host rt e a addr h = (inr r, h', tr) →
  EvRotate false ∈ tr →
  mutation_requested a = true ∧
  (rotate (e_faults e) (live h) (backups h)).1 ≠ 0 ∧
  success r = false ∧ updated r = false ∧ switched r = false ∧
  msg r = "backup failed: "
          +:+ (make_remote_backup rt (e_faults e) (live h) (backups h)).1.2 ∧
  (EvReadConfig ∉ tr) ∧ (EvWriteConfig ∉ tr) ∧ (EvSwitchpool ∉ tr) ∧
  live h' = live h.
Proof.
  intros (x & sf & Hrun & -> & -> & ->)%process_host_run Hrot.
  destruct (run_rotate _ _ _ _ _ _ _ Hrun _ Hrot) as [Hm Hok].
  destruct (run_rotate_failed _ _ _ _ _ _ _ Hrun Hrot)
    as (Hs & Hu & Hw & Hmsg & _ & Hr & Hwr & Hsw & Hl).
  repeat split; try done.
  destruct (make_remote_backup_rotate rt (e_faults e) (live h) (backups h))
    as [Hes _].
  rewrite Hok in Hes. symmetry in Hes. by apply Z.eqb_neq in Hes.
Qed.

(** C7, as the script has it.  When the run ends without the catch-all
    handler (an early return or the end of the body), [success] is
    [updated or switched]: an update that went through gives success
    whatever the switch command did, and a run without a mutation request
    whose switch did not succeed gives failure.  When the catch-all handler
    runs, [success] is false and the message is the handler's; it runs
    whenever the connection is up and the body of the outer [try] raises,
    and [updated] and [switched] are then what the body had made them. *)
Theorem C7_success_flag (rt : PyRuntime) (e : env) (a : args)
  (addr : string) (h h' : host) (r : HostResult) (tr : list event) :
  process_host rt e a addr h = (inr r, h', tr) →
  ((∀ y, EvUnhandled y ∉ tr) →
   success r = updated r || switched r ∧
   (updated r = true → success r = true) ∧
   (mutation_requested a = false → switched r = false → success r = false)) ∧
  (∀ y, EvUnhandled y ∈ tr →
        success r = false ∧ msg r = "Unhandled error: " +:+ describe y) ∧
  (e_connect e = None →
   ∀ y s', guarded rt e a (connected addr h) = (inl (Raised y), s') →
           EvUnhandled y ∈ tr ∧ success r = false ∧
           updated r = updated (result s') ∧
           switched r = switched (result s') ∧
           msg r = "Unhandled error: " +:+ describe y).
Proof.
  intros Hp.
  pose proof Hp as (x & sf & Hrun & -> & -> & ->)%process_host_run.
  split; [|split].
  - intros Hno.
    pose proof (run_success_or _ _ _ _ _ _ _ Hrun Hno) as Hs.
    split; [done|]. split.
    + intros Hu. by rewrite Hs, Hu.
    + intros Hm Hsw.
      destruct (run_no_mutation _ _ _ _ _ _ _ Hrun Hm) as (Hu & _).
      by rewrite Hs, Hu, Hsw.
  - intros y Hy. by eapply run_unhandled.
  - intros Hc y s' Hg.
    assert (e_init e = None) as Hi.
    { unfold process_host in Hp. by destruct (e_init e). }
    rewrite (process_host_unhandled _ _ _ _ _ _ _ Hi Hc Hg) in Hp.
    injection Hp as <- _ <-. cbn [success updated switched msg].
    split; [|done]. apply elem_of_app. right. apply list_elem_of_here.
Qed.

(** C7 fails as stated: the config is updated, then the switch command
    raises (the channel is gone); the catch-all handler only sets the
    message, and the result has [updated] true and [success] false. *)
Lemma C7_fault_after_update :
  (process_host Sample.rt
     (Sample.calm (inl (Exn "SSHException" "Channel closed." false)))
     (Args (Some "stratum+tcp://ca.vipor.net:5045") None None true)
     "10.10.10.100" (Host (Some "{}") ∅)).1.1
  = inr (mkResult "10.10.10.100" false true false
           "Unhandled error: SSHException: Channel closed.").
Proof. vm_compute. reflexivity. Qed.

End WorkflowClaims.

Section BatchClaims.

Lemma as_completed_perm {A} (sched : list nat) (l : list A) :
  as_completed sched l (length l) ≡ₚ l.
Proof.
  remember (length l) as n eqn:Hn. revert sched l Hn.
  induction n as [|n IH]; intros sched l Hn.
  - destruct l; [done|discriminate].
  - cbn [as_completed]. rewrite <- Hn.
    assert (hd 0 sched `mod` S n < S n)%nat as Hk
      by (apply Nat.mod_upper_bound; lia).
    destruct (lookup_lt_is_Some_2 l (hd 0%nat sched `mod` S n)) as [x Hx];
      [lia|].
    rewrite Hx. rewrite (delete_Permutation l _ x Hx) at 2.
    constructor. apply IH.
    rewrite length_delete by eauto. lia.
Qed.

Lemma fold_tally (g : job → HostResult) (l : list job) (s : summary) :
  let s' := fold_left (fun s j => tally s (g j)) l s in
  results s' = (results s ++ map g l)%list ∧
  (succeeded s' + failed s' = succeeded s + failed s + length l)%nat.
Proof.
  revert s. induction l as [|j l IH]; intros s; cbn [fold_left map length].
  - rewrite app_nil_r. split; [done|lia].
  - destruct (IH (tally s (g j))) as [Hr Hc]. cbn zeta in *.
    rewrite Hr, Hc. unfold tally.
    destruct (success (g j)); cbn [results succeeded failed];
      rewrite <- app_assoc; split; [done|lia|done|lia].
Qed.

Lemma collect_ip rt a j : Workflow.ip (collect rt a j) = j_ip j.
Proof.
  unfold collect.
  destruct (process_host rt (j_env j) a (j_ip j) (j_host j))
    as [[[y|r] h'] tr] eqn:E; cbn [fst]; [done|].
  apply process_host_run in E as (x & sf & Hrun & -> & _).
  by eapply run_ip.
Qed.

(** C9.  A pool with a worker count that is not positive is refused, and
    no host is submitted.  Otherwise, whatever the order in which the runs
    complete, the loop collects one result per submitted host: as many
    results as hosts, the results being those of the hosts' own runs up to
    order, and every host counted once as a success or as a failure.  A
    fault inside one host's run gives a failed result for that host: when
    lines 171-172 raise, or the future raises otherwise, the result is the
    ["executor error"] one; when the connection is up and the body of the
    outer [try] raises (a path resolution that raises, for one), or the
    catch-all handler ran, the result has [success] false and the handler's
    message. *)
Theorem C9_result_completeness (rt : PyRuntime) (a : args)
  (hosts : list job) (sched : list nat) (workers : Z) :
  (workers ≤ 0 → ∃ y, run_pool rt a hosts sched workers = inl y) ∧
  (0 < workers →
   ∃ s, run_pool rt a hosts sched workers = inr s ∧
     length (results s) = length hosts ∧
     results s ≡ₚ map (collect rt a) hosts ∧
     map Workflow.ip (results s) ≡ₚ map j_ip hosts ∧
     (succeeded s + failed s = length hosts)%nat) ∧
  ∀ j : job,
    let o := process_host rt (j_env j) a (j_ip j) (j_host j) in
    (∀ y, e_init (j_env j) = Some y →
          collect rt a j = mkResult (j_ip j) false false false
                             ("executor error: " +:+ exn_text y)) ∧
    (∀ y, o.1.1 = inl y →
          collect rt a j = mkResult (j_ip j) false false false
                             ("executor error: " +:+ exn_text y)) ∧
    (e_init (j_env j) = None → e_connect (j_env j) = None →
     ∀ y s',
       guarded rt (j_env j) a (connected (j_ip j) (j_host j))
       = (inl (Raised y), s') →
       collect rt a j
       = mkResult (j_ip j) false (updated (result s')) (switched (result s'))
           ("Unhandled error: " +:+ describe y)) ∧
    (e_init (j_env j) = None → e_connect (j_env j) = None →
     ∀ y, e_resolve_config (j_env j) = Some y →
          collect rt a j = mkResult (j_ip j) false false false
                             ("Unhandled error: " +:+ describe y)) ∧
    (∀ r y, o.1.1 = inr r → EvUnhandled y ∈ o.2 →
            collect rt a j = r ∧ success r = false ∧
            msg r = "Unhandled error: " +:+ describe y).
Proof.
  split; [|split].
  - intros Hw. unfold run_pool, executor.
    apply Z.leb_le in Hw. rewrite Hw. eauto.
  - intros Hw. unfold run_pool, executor.
    apply Z.leb_gt in Hw. rewrite Hw. cbn [rbind].
    eexists. split; [reflexivity|]. unfold run_batch.
    destruct (fold_tally (collect rt a)
                (as_completed sched hosts (length hosts)) (Summary [] 0 0))
      as [Hr Hc].
    cbn zeta in Hr, Hc. cbn [results succeeded failed app] in Hr, Hc.
    pose proof (as_completed_perm sched hosts) as Hp.
    assert (results (fold_left (fun s j => tally s (collect rt a j))
                       (as_completed sched hosts (length hosts))
                       (Summary [] 0 0))
            ≡ₚ map (collect rt a) hosts) as Hres.
    { rewrite Hr. by apply fmap_Permutation. }
    split; [|split; [|split]].
    + rewrite Hres. apply length_map.
    + exact Hres.
    + rewrite Hres. rewrite map_map.
      erewrite map_ext; [reflexivity|]. intros j. apply collect_ip.
    + rewrite Hc. cbn [Nat.add]. by apply Permutation_length.
  - intros j. cbv zeta.
    assert (∀ y s',
              e_init (j_env j) = None → e_connect (j_env j) = None →
              guarded rt (j_env j) a (connected (j_ip j) (j_host j))
              = (inl (Raised y), s') →
              collect rt a j
              = mkResult (j_ip j) false (updated (result s'))
                  (switched (result s'))
                  ("Unhandled error: " +:+ describe y)) as Hbody.
    { intros y s' Hi Hc Hg. unfold collect.
      by rewrite (process_host_unhandled _ _ _ _ _ _ _ Hi Hc Hg). }
    split; [|split; [|split; [|split]]].
    + intros y Hy. unfold collect, process_host. by rewrite Hy.
    + unfold collect. by intros y ->.
    + intros Hi Hc y s'. by apply Hbody.
    + intros Hi Hc y Hy.
      by rewrite (Hbody y (State (mkResult (j_ip j) false false false "")
                             false (j_host j)
                             [EvConnect; EvResolve CONFIG_PATH_RAW]) Hi Hc)
        by (unfold guarded, resolve_remote_path, connected; cbn;
            by rewrite Hy).
    + unfold collect.
      destruct (process_host rt (j_env j) a (j_ip j) (j_host j))
        as [[o h'] tr] eqn:E. cbn [fst snd].
      intros r y -> Hy. split; [done|].
      apply process_host_run in E as (x & sf & Hrun & -> & _ & ->).
      by eapply run_unhandled.
Qed.

End BatchClaims.

(** ** Further properties *)

Section PoolsExtras.

Lemma targets_falsy u p : truthy u = false → targets u p = inr false.
Proof.
  unfold truthy, targets. destruct u as [s|]; [|done].
  by destruct (String.eqb s "").
Qed.

Lemma targets_dict (s : string) (d : dict) :
  targets (Some s) (JObj d)
  = inr (negb (String.eqb s "") && has_url s (JObj d)).
Proof.
  unfold targets, has_url. destruct (String.eqb s ""); [done|].
  cbn [method_get rbind negb andb]. done.
Qed.

Lemma targets_dict_total u d : ∃ b, targets u (JObj d) = inr b.
Proof.
  destruct u as [s|]; [|by exists false].
  rewrite targets_dict. eauto.
Qed.

Lemma set_disabled_dict flag d :
  ∃ d', set_disabled flag (JObj d) = inr (JObj d').
Proof.
  unfold set_disabled. cbn [method_get rbind setitem].
  destruct (negb _); eauto.
Qed.

(** On a dict the loop body never raises and gives a dict. *)
Lemma update_entry_dict du eu d :
  ∃ d', update_entry du eu (JObj d) = inr (JObj d').
Proof.
  unfold update_entry.
  destruct (targets_dict_total du d) as [[] ->]; cbn [rbind].
  - apply set_disabled_dict.
  - destruct (targets_dict_total eu d) as [[] ->]; cbn [rbind].
    + apply set_disabled_dict.
    + eauto.
Qed.

Lemma targets_not_dict u p :
  is_dict p = false → truthy u = true →
  targets u p = inl (AttributeError p "get").
Proof.
  unfold truthy, targets. destruct u as [s|]; [|done].
  destruct (String.eqb s ""); [done|]. intros Hp _.
  by destruct p.
Qed.

Lemma update_entry_not_dict du eu p :
  is_dict p = false → truthy du || truthy eu = true →
  update_entry du eu p = inl (AttributeError p "get").
Proof.
  intros Hp Ht. unfold update_entry.
  destruct (truthy du) eqn:Hdu.
  - by rewrite targets_not_dict.
  - rewrite (targets_falsy du) by done. cbn [rbind].
    cbn in Ht. by rewrite targets_not_dict.
Qed.

(** X1: with no target in force (absent or the empty string) and no
    replacement, a pools list comes back as it is, whatever its items
    are. *)
Theorem update_without_targets (ps : list json) (du eu : option string) :
  truthy du = false → truthy eu = false →
  update_pools_list (JArr ps) du eu None = inr (JArr ps).
Proof.
  intros Hdu Heu. unfold update_pools_list. cbn [py_iter rbind].
  assert (rmap (update_entry du eu) ps = inr ps) as ->; [|done].
  apply Forall2_rmap. apply Forall2_same_length_lookup_2; [done|].
  intros i p p' Hp Hp'. simplify_eq.
  unfold update_entry. by rewrite !targets_falsy.
Qed.

(** X2: a list of dicts is never refused: the update returns a list of
    dicts of the same length. *)
Theorem update_dicts_total (ps : list json) (du eu : option string) :
  Forall (fun p => is_dict p = true) ps →
  ∃ ps', update_pools_list (JArr ps) du eu None = inr (JArr ps') ∧
         length ps' = length ps ∧
         Forall (fun p => is_dict p = true) ps'.
Proof.
  intros Hps.
  assert (∃ ps', Forall2 (fun p p' => update_entry du eu p = inr p') ps ps' ∧
                 Forall (fun p => is_dict p = true) ps') as (ps' & HF & Hd).
  { induction Hps as [|p ps Hp _ (ps' & HF & Hd)]; [by exists []|].
    destruct p; try done.
    destruct (update_entry_dict du eu d) as [d' Hd'].
    exists (JObj d' :: ps'). split; constructor; done. }
  exists ps'. unfold update_pools_list. cbn [py_iter rbind].
  rewrite (Forall2_rmap _ _ _ HF). cbn [rbind].
  split; [done|]. split; [|done]. symmetry. by eapply Forall2_length.
Qed.

(** X3: an item that is not a dict stops the update as soon as a target is
    in force: the update raises the [AttributeError] of the first such
    item. *)
Theorem update_rejects_non_dict (pre post : list json) (p : json)
  (du eu : option string) :
  Forall (fun q => is_dict q = true) pre →
  is_dict p = false →
  truthy du || truthy eu = true →
  update_pools_list (JArr (pre ++ p :: post)) du eu None
  = inl (AttributeError p "get").
Proof.
  intros Hpre Hp Ht. unfold update_pools_list. cbn [py_iter rbind].
  assert (rmap (update_entry du eu) (pre ++ p :: post)
          = inl (AttributeError p "get")) as ->; [|done].
  induction Hpre as [|q pre Hq _ IH]; cbn [app rmap].
  - by rewrite update_entry_not_dict.
  - destruct q; try done.
    destruct (update_entry_dict du eu d) as [d' ->]. cbn [rbind].
    by rewrite IH.
Qed.

(** X4: when no entry has the URL of a target, the list comes back
    unchanged. *)
Theorem update_absent_url (ps : list json) (du eu : option string) :
  Forall (fun p => is_dict p = true) ps →
  (∀ u, du = Some u → Forall (fun p => has_url u p = false) ps) →
  (∀ u, eu = Some u → Forall (fun p => has_url u p = false) ps) →
  update_pools_list (JArr ps) du eu None = inr (JArr ps).
Proof.
  intros Hps Hdu Heu. unfold update_pools_list. cbn [py_iter rbind].
  assert (rmap (update_entry du eu) ps = inr ps) as ->; [|done].
  apply Forall2_rmap. apply Forall2_same_length_lookup_2; [done|].
  intros i p p' Hp Hp'. simplify_eq.
  assert (∀ u, (∀ v, u = Some v → Forall (fun p => has_url v p = false) ps) →
               targets u p = inr false) as Hno.
  { intros u Hu. rewrite Forall_forall in Hps.
    pose proof (Hps p (list_elem_of_lookup_2 _ _ _ Hp)) as Hd.
    destruct p as [| | | | | |d]; try done.
    destruct u as [v|]; [|done]. rewrite targets_dict.
    specialize (Hu v eq_refl). rewrite Forall_forall in Hu.
    rewrite (Hu _ (list_elem_of_lookup_2 _ _ _ Hp)). by rewrite andb_false_r. }
  unfold update_entry. rewrite (Hno du Hdu). cbn [rbind].
  by rewrite (Hno eu Heu).
Qed.

Lemma set_disabled_effect flag p p' :
  set_disabled flag p = inr p' →
  ∃ d', p' = JObj d' ∧ py_eq_int (py_get "disabled" d') flag = true.
Proof.
  intros (d & -> & [[He ->]|[_ ->]])%set_disabled_inv; eexists; split; eauto.
  rewrite py_get_set_eq. cbn [py_eq_int]. apply Z.eqb_refl.
Qed.

Lemma has_url_set_disabled v x d :
  has_url v (JObj (dict_set "disabled" x d)) = has_url v (JObj d).
Proof. unfold has_url. by rewrite py_get_set_ne. Qed.

Lemma has_url_unique u v p :
  has_url u p = true → has_url v p = true → u = v.
Proof.
  unfold has_url. destruct p as [| | | | | |d]; try done.
  destruct (py_get "url" d); try done. cbn [py_eq_str].
  intros Hu%String.eqb_eq Hv%String.eqb_eq. congruence.
Qed.

(** An entry that has the URL [v] after the loop body had it before, and
    was a dict. *)
Lemma update_entry_url du eu p p' v :
  update_entry du eu p = inr p' → has_url v p' = true →
  ∃ d, p = JObj d ∧ has_url v (JObj d) = true.
Proof.
  intros Hup Hv.
  destruct (update_entry_step _ _ _ _ Hup) as [|d Hp _ _|d Hp _ _ _].
  - destruct p as [| | | | | |d]; try done. eauto.
  - rewrite has_url_set_disabled in Hv. eauto.
  - rewrite has_url_set_disabled in Hv. eauto.
Qed.

(** X5: the targets take effect: after the update every entry with the
    disable target's URL has ["disabled"] equal to 1, and every entry with
    the enable target's URL, the disable target being another URL, has it
    equal to 0. *)
Theorem update_takes_effect (ps : list json) (du eu : option string)
  (pools' : json) :
  update_pools_list (JArr ps) du eu None = inr pools' →
  ∃ ps', pools' = JArr ps' ∧
    (∀ u, du = Some u → u ≠ "" →
       Forall (fun p' => has_url u p' = true →
                 ∃ d', p' = JObj d' ∧
                       py_eq_int (py_get "disabled" d') 1 = true) ps') ∧
    (∀ v, eu = Some v → v ≠ "" → du ≠ Some v →
       Forall (fun p' => has_url v p' = true →
                 ∃ d', p' = JObj d' ∧
                       py_eq_int (py_get "disabled" d') 0 = true) ps').
Proof.
  intros (ps' & -> & HF)%update_pools_list_arr. exists ps'. split; [done|].
  split.
  - intros u -> Hu%String.eqb_neq.
    induction HF as [|p p' ps ps' Hp _ IH]; constructor; [|done].
    intros Hurl.
    destruct (update_entry_url _ _ _ _ _ Hp Hurl) as (d & -> & Hd).
    unfold update_entry in Hp. rewrite targets_dict, Hu, Hd in Hp.
    cbn [negb andb rbind] in Hp. by apply set_disabled_effect in Hp.
  - intros v -> Hv%String.eqb_neq Hne.
    induction HF as [|p p' ps ps' Hp _ IH]; constructor; [|done].
    intros Hurl.
    destruct (update_entry_url _ _ _ _ _ Hp Hurl) as (d & -> & Hd).
    assert (targets du (JObj d) = inr false) as Hdu.
    { destruct du as [u|]; [|done]. rewrite targets_dict.
      destruct (has_url u (JObj d)) eqn:Hud; [|by rewrite andb_false_r].
      destruct Hne. f_equal. by eapply has_url_unique. }
    unfold update_entry in Hp. rewrite Hdu in Hp. cbn [rbind] in Hp.
    rewrite targets_dict, Hv, Hd in Hp. cbn [negb andb rbind] in Hp.
    by apply set_disabled_effect in Hp.
Qed.

Lemma dict_set_absent k v d : dict_get k d = None → dict_set k v d = (d ++ [(k, v)])%list.
Proof.
  induction d as [|[k0 v0] d IH]; cbn [dict_get dict_set app]; [done|].
  destruct (String.eqb k k0); [done|]. intros H. by rewrite IH.
Qed.

Lemma update_config_obj d du eu np pools' :
  update_pools_list (py_get_default "pools" (JArr []) d) du eu np = inr pools' →
  update_config (JObj d) du eu np = inr (JObj (dict_set "pools" pools' d)).
Proof.
  intros Hup. unfold update_config.
  cbn [method_get method_get_default rbind setitem]. rewrite Hup.
  cbn [rbind]. unfold py_get.
  destruct (dict_get "user" d) as [u|] eqn:Hu; [|done].
  rewrite (dict_set_same "user" u) by (by rewrite dict_get_set_ne).
  by destruct u.
Qed.

(** X6: a replacement list is put in the place of the old ["pools"] value
    (or last, when the document had none); every other top-level field
    keeps its value and its position. *)
Theorem replace_keeps_other_fields (d : dict) (du eu : option string)
  (replacement : json) :
  update_config (JObj d) du eu (Some replacement)
  = inr (JObj (dict_set "pools" replacement d)) ∧
  (∀ k, k ≠ "pools" →
        dict_get k (dict_set "pools" replacement d) = dict_get k d) ∧
  (dict_set "pools" replacement d).*1
  = (d.*1 ++ match dict_get "pools" d with
             | Some _ => []
             | None => ["pools"]
             end)%list.
Proof.
  split; [by apply update_config_obj|]. split.
  - intros k Hk. by rewrite dict_get_set_ne.
  - apply dict_set_keys.
Qed.

(** X7: a document without a ["pools"] field gets an empty pools list as
    its last field, and nothing else changes. *)
Theorem update_config_missing_pools (d : dict) (du eu : option string) :
  dict_get "pools" d = None →
  update_config (JObj d) du eu None
  = inr (JObj (d ++ [("pools", JArr [])])).
Proof.
  intros Hp. rewrite <- (dict_set_absent "pools") by done.
  apply update_config_obj. unfold py_get_default. by rewrite Hp.
Qed.

End PoolsExtras.


Section BackupExtras.

(** X8: a rotation that exits with status 0: slots 2 to 4 are what slots
    1 to 3 were (absent when they were absent); slot 5 is what slot 4 was,
    or, without a slot 4, nothing when [rm] worked and the old slot 5 when
    it failed; slot 1 is what the last [cp] left (the live config when it
    worked, a truncated copy when it stopped part-way, nothing otherwise);
    the original snapshot is the old one, or what the first [cp] left when
    there was none; no other file changes. *)
Theorem rotate_exact (f : faults) (live : option string)
  (files : gmap string string) :
  (rotate f live files).1 = 0 →
  let files' := (rotate f live files).2 in
  (∀ i, (1 ≤ i ≤ 3)%nat → files' !! slot (S i) = files !! slot i) ∧
  files' !! slot 5 =
    match files !! slot 4 with
    | Some c => Some c
    | None => match f_rm f with
              | None => None
              | Some _ => files !! slot 5
              end
    end ∧
  files' !! slot 1 = cp_leaves (f_cp_slot f) (f_cp_slot_left f) live ∧
  files' !! orig_name =
    match files !! orig_name with
    | Some c => Some c
    | None => cp_leaves (f_cp_orig f) (f_cp_orig_left f) live
    end ∧
  (∀ name, ¬ managed name → files' !! name = files !! name).
Proof.
  intros H0 files'. subst files'.
  destruct (rotate_contents f live files H0) as (Hs & H5 & H1 & Ho).
  split; [exact Hs|]. split; [exact H5|]. split; [exact H1|].
  split; [exact Ho|].
  intros name Hn. exact (rotate_upto_frame 9 f live files name Hn).
Qed.

(** X9: the rotation script never changes the live config, wherever it
    stops. *)
Theorem rotation_keeps_live (n : nat) (f : faults) (live : option string)
  (files : gmap string string) :
  sh_live (run_script (take n (rotation_script f))
             (ShState live files "")).2 = live.
Proof.
  destruct (rotation_inv n f live files)
    as [[_ (Hl & _)]|[_ (j & _ & (Hl & _) & _)]]; exact Hl.
Qed.

Lemma fault_free_exit f live files :
  f_mkdir f = None → f_cd f = None → (∀ i, f_mv f i = None) →
  (rotate f live files).1 = 0.
Proof.
  intros Hmk Hcd Hmv. rewrite rotate_upto_all. unfold rotate_upto. cbn [fst].
  destruct (rotation_inv 9 f live files) as [[H0 _]|[_ (j & _ & _ & HF)]];
    [done|].
  destruct j as [|[|[|[|[|[|[|[|j]]]]]]]]; cbn in HF; try done;
    by destruct HF as [_ []].
Qed.

Lemma fault_free_rotate f c files :
  fault_free f →
  slots (rotate f (Some c) files).2 = Some c :: take 4 (slots files).
Proof.
  intros (Hmk & Hcd & Hco & Hrm & Hmv & Hcs).
  pose proof (fault_free_exit f (Some c) files Hmk Hcd Hmv) as H0.
  destruct (rotate_contents f (Some c) files H0) as (Hs & H5 & H1 & _).
  unfold slots. cbn [fmap list_fmap take].
  rewrite H1, H5, !Hs by lia. unfold cp_leaves, new_slot_5, rm_leaves.
  rewrite Hcs, Hrm. by destruct (files !! slot 4).
Qed.

Lemma take_app_take {A} (n m : nat) (l k : list A) :
  (n ≤ m)%nat → take n (l ++ take m k) = take n (l ++ k).
Proof.
  revert n. induction l as [|x l IH]; intros n Hn; cbn [app].
  - rewrite take_take. f_equal. lia.
  - destruct n as [|n]; [done|]. cbn [take]. f_equal. apply IH. lia.
Qed.

(** X10: after any number of fault-free rotations, each with a live config
    in place, the five slots hold the most recent live configs, newest
    first, followed by what the slots held before. *)
Theorem rotations_history (rs : list (faults * string))
  (files : gmap string string) :
  Forall (fun r => fault_free r.1) rs →
  slots (rotations (prod_map id Some <$> rs) files)
  = take 5 (rev (Some <$> rs.*2) ++ slots files).
Proof.
  revert files. induction rs as [|[f c] rs IH]; intros files Hrs.
  - done.
  - apply Forall_cons in Hrs as [Hf Hrs]. cbn [fst] in Hf.
    rewrite !fmap_cons. cbn [prod_map id fst snd rotations rev].
    rewrite IH by done. rewrite fault_free_rotate by done.
    rewrite <- app_assoc. cbn [app].
    change (Some c :: take 4 (slots files))
      with (take 5 (Some c :: slots files)).
    by rewrite take_app_take.
Qed.

End BackupExtras.

Ltac fix_ok :=
  try match goal with
      | n : ?c ≠ ?c |- _ => by destruct n
      end;
  repeat match goal with
         | H : negb ?b = _ |- _ => destruct b; try discriminate H; clear H
         end.

Ltac same_lhs :=
  repeat match goal with
         | H1 : ?t = _, H2 : ?t = _ |- _ => rewrite H1 in H2; simplify_eq
         end.

Section RunFacts2.
Context (rt : PyRuntime) (e : env) (a : args) (addr : string) (h : host).
Context (x : exit + unit) (sf : state).
Hypothesis Hrun : run rt e a (initial addr h) = (x, sf).

Lemma run_write_order :
  EvWriteConfig ∈ trace sf →
  ∃ rest, trace sf = (write_prefix ++ rest)%list ∧ EvWriteConfig ∉ rest.
Proof using Hrun.
  revert Hrun. destruct e. run_paths E; intros Hy; mem_inv Hy; fix_ok.
  all: eexists; split; [reflexivity|not_mem].
Qed.

Lemma run_written :
  EvWriteConfig ∈ trace sf →
  ∃ old data config config' text,
    live h = Some old ∧ utf8_decode rt old = inr data ∧
    json_loads rt data = inr config ∧
    update_config config (disable_url a) (enable_url a) (new_pools a)
    = inr config' ∧
    json_dumps rt config' = inr text ∧
    backups (remote sf)
    = (make_remote_backup rt (e_faults e) (live h) (backups h)).2 ∧
    match e_write e with
    | None => updated (result sf) = true ∧ live (remote sf) = Some text
    | Some wf =>
        result sf = mkResult addr false false false
                      ("write config failed: " +:+ describe (wf_exn wf)) ∧
        live (remote sf) = wf_left wf
    end.
Proof using Hrun.
  revert Hrun. destruct e. cbn [e_write e_faults].
  run_paths E; intros Hy; mem_inv Hy; fix_ok.
  all: do 5 eexists; repeat split; eauto.
Qed.

Lemma run_updated_written :
  updated (result sf) = true → EvWriteConfig ∈ trace sf.
Proof using Hrun.
  revert Hrun. destruct e. run_paths E; intros Hy; try discriminate Hy; mem.
Qed.

(** The switch command is sent when it is requested and the run gets that
    far: after an update that went through, or with no mutation to make. *)
Lemma run_switch_sent :
  EvSwitchpool ∈ trace sf →
  do_switchpool a = true ∧
  (mutation_requested a = true → updated (result sf) = true).
Proof using Hrun.
  revert Hrun. destruct e. run_paths E; intros Hy; mem_inv Hy; fix_ok.
  all: split; [done|]; intros; done || congruence.
Qed.

Lemma run_switch_after_update :
  do_switchpool a = true → updated (result sf) = true →
  EvSwitchpool ∈ trace sf.
Proof using Hrun.
  revert Hrun. destruct e. run_paths E; intros Hs Hu;
    try discriminate Hu; try congruence; mem.
Qed.

(** A run that connected closes the session last, and closes the SFTP
    channel when it had opened one. *)
Lemma run_closed :
  e_connect e = None →
  last (trace sf) = Some EvClose ∧
  (EvReadConfig ∈ trace sf → EvCloseSftp ∈ trace sf).
Proof using Hrun.
  revert Hrun. destruct e. cbn [e_connect].
  run_paths E; intros Hc; try discriminate Hc.
  all: split; [reflexivity|]; intros Hy; mem_inv Hy; mem.
Qed.

Lemma run_connect_failed y :
  e_connect e = Some y →
  sf = State (mkResult addr false false false
                ("SSH connect failed: " +:+ describe y))
             false h [EvConnect].
Proof using Hrun.
  revert Hrun. destruct e. cbn [e_connect].
  run_paths E; intros Hc; try discriminate Hc.
  all: simplify_eq; by destruct h.
Qed.

(** On a host without a config nothing is written. *)
Lemma run_no_config :
  live h = None →
  live (remote sf) = None ∧ updated (result sf) = false ∧
  (EvWriteConfig ∉ trace sf) ∧
  (EvReadConfig ∈ trace sf → e_read e = None →
   result sf = mkResult addr false false false
     "read config failed: FileNotFoundError: [Errno 2] No such file").
Proof using Hrun.
  revert Hrun. destruct e. cbn [e_read].
  run_paths E; intros Hl; try discriminate Hl; fix_ok.
  all: repeat split; try done; try not_mem.
  all: intros Hy; mem_inv Hy; intros; try discriminate; done.
Qed.

(** A document that does not parse, or that the update refuses. *)
Lemma run_bad_document old data :
  EvReadConfig ∈ trace sf → e_read e = None →
  live h = Some old → utf8_decode rt old = inr data →
  (∀ y, json_loads rt data = inl y →
        result sf = mkResult addr false false false
                      ("json parse failed: " +:+ describe y)) ∧
  (∀ config y,
     json_loads rt data = inr config →
     update_config config (disable_url a) (enable_url a) (new_pools a)
     = inl y →
     result sf = mkResult addr false false false
                   ("Unhandled error: " +:+ describe y)) ∧
  ((∀ config config', json_loads rt data = inr config →
      update_config config (disable_url a) (enable_url a) (new_pools a)
      ≠ inr config') →
   (EvWriteConfig ∉ trace sf) ∧ live (remote sf) = Some old).
Proof using Hrun.
  revert Hrun. destruct e. cbn [e_read].
  run_paths E; intros Hy; mem_inv Hy; fix_ok.
  all: intros He Hl Hd; try discriminate He; simplify_eq; same_lhs.
  all: repeat split; intros; same_lhs; try done; try not_mem.
  all: exfalso;
    match goal with
    | H : ∀ _ _, _ → _ ≠ _ |- _ => eapply H; eassumption
    end.
Qed.

(** A run without a mutation request whose session is up sends the switch
    command when asked to and reports what came back. *)
Lemma run_switch_only reply :
  e_connect e = None → e_resolve_config e = None →
  e_resolve_backup e = None →
  mutation_requested a = false → do_switchpool a = true →
  e_switch e = inr reply →
  result sf = mkResult addr (remote_send_switchpool rt reply).1 false
                (remote_send_switchpool rt reply).1
                ("switchpool: " +:+ (remote_send_switchpool rt reply).2) ∧
  remote sf = h ∧
  trace sf = [EvConnect; EvResolve CONFIG_PATH_RAW; EvResolve BACKUP_DIR_RAW;
              EvSwitchpool; EvClose].
Proof using Hrun.
  revert Hrun. destruct e.
  cbn [e_connect e_resolve_config e_resolve_backup e_switch].
  run_paths E; intros; simplify_eq; fix_ok.
  all: try congruence.
  all: destruct h; repeat split; try done.
  all: by rewrite Hpath6.
Qed.

End RunFacts2.


Section WorkflowExtras.

(** X11: a run writes the live config at most once, and only after it has
    connected, resolved both paths, seen the rotation report success and
    read the config, in that order. *)
Theorem write_comes_last (rt : PyRuntime) (e : env) (a : args)
  (addr : string) (h h' : host) (r : HostResult) (tr : list event) :
  process_host rt e a addr h = (inr r, h', tr) →
  EvWriteConfig ∈ tr →
  ∃ rest, tr = (write_prefix ++ rest)%list ∧ EvWriteConfig ∉ rest.
Proof.
  intros Hhost.
  apply process_host_run in Hhost as (x & sf & Hrun & -> & -> & ->).
  by eapply run_write_order.
Qed.

(** X12: when the result says [updated], the live config is afterwards the
    serialisation of the updated document, the document being what the
    old content decodes and parses to; the backup files are those the
    rotation left, and the rotation had exited with status 0. *)
Theorem updated_means_written (rt : PyRuntime) (e : env) (a : args)
  (addr : string) (h h' : host) (r : HostResult) (tr : list event) :
  process_host rt e a addr h = (inr r, h', tr) →
  updated r = true →
  ∃ old data config config' text,
    live h = Some old ∧ utf8_decode rt old = inr data ∧
    json_loads rt data = inr config ∧
    update_config config (disable_url a) (enable_url a) (new_pools a)
    = inr config' ∧
    json_dumps rt config' = inr text ∧
    live h' = Some text ∧
    (rotate (e_faults e) (live h) (backups h)).1 = 0 ∧
    backups h' = (rotate (e_faults e) (live h) (backups h)).2.
Proof.
  intros Hhost.
  apply process_host_run in Hhost as (x & sf & Hrun & -> & -> & ->).
  intros Hu.
  pose proof (run_updated_written _ _ _ _ _ _ _ Hrun Hu) as Hw.
  destruct (run_written _ _ _ _ _ _ _ Hrun Hw)
    as (old & data & config & config' & text & Hl & Hd & Hp & Hc & Ht & Hb & Hwr).
  destruct (run_write_order _ _ _ _ _ _ _ Hrun Hw) as (rest & Htr & _).
  assert (EvRotate true ∈ trace sf) as Hrot by (rewrite Htr; mem).
  destruct (run_rotate _ _ _ _ _ _ _ Hrun _ Hrot) as [_ Hok].
  destruct (make_remote_backup_rotate rt (e_faults e) (live h) (backups h))
    as [Hes Hfs].
  rewrite Hok in Hes. symmetry in Hes. apply Z.eqb_eq in Hes.
  exists old, data, config, config', text.
  destruct (e_write e) as [wf|].
  - destruct Hwr as [Hres _]. rewrite Hres in Hu. discriminate Hu.
  - destruct Hwr as [_ Hlive]. rewrite <- Hfs. repeat split; done.
Qed.

(** X13: a write that fails ends the run: the result is the failure with
    the ["write config failed: "] message, the live config is what the
    failed write left of it, and the switch command is not sent. *)
Theorem failed_write_ends_run (rt : PyRuntime) (e : env) (a : args)
  (addr : string) (h h' : host) (r : HostResult) (tr : list event)
  (wf : write_fault) :
  process_host rt e a addr h = (inr r, h', tr) →
  EvWriteConfig ∈ tr → e_write e = Some wf →
  r = mkResult addr false false false
        ("write config failed: " +:+ describe (wf_exn wf)) ∧
  live h' = wf_left wf ∧ (EvSwitchpool ∉ tr).
Proof.
  intros Hhost.
  apply process_host_run in Hhost as (x & sf & Hrun & -> & -> & ->).
  intros Hw Hwf.
  destruct (run_written _ _ _ _ _ _ _ Hrun Hw)
    as (old & data & config & config' & text & _ & _ & _ & _ & _ & _ & Hwr).
  rewrite Hwf in Hwr. destruct Hwr as [Hres Hlive].
  split; [done|]. split; [done|]. intros Hsw.
  destruct (run_write_order _ _ _ _ _ _ _ Hrun Hw) as (rest & Htr & _).
  assert (EvRotate true ∈ trace sf) as Hrot by (rewrite Htr; mem).
  destruct (run_rotate _ _ _ _ _ _ _ Hrun _ Hrot) as [Hm _].
  destruct (run_switch_sent _ _ _ _ _ _ _ Hrun Hsw) as [_ Hu].
  specialize (Hu Hm). rewrite Hres in Hu. discriminate Hu.
Qed.

(** X14: with a mutation and the switch both requested, the switch command
    is sent exactly when the update went through. *)
Theorem switch_follows_update (rt : PyRuntime) (e : env) (a : args)
  (addr : string) (h h' : host) (r : HostResult) (tr : list event) :
  process_host rt e a addr h = (inr r, h', tr) →
  mutation_requested a = true → do_switchpool a = true →
  (EvSwitchpool ∈ tr ↔ updated r = true).
Proof.
  intros Hhost.
  apply process_host_run in Hhost as (x & sf & Hrun & -> & -> & ->).
  intros Hm Hs. split.
  - intros Hsw. by destruct (run_switch_sent _ _ _ _ _ _ _ Hrun Hsw) as [_ Hu]; auto.
  - by eapply run_switch_after_update.
Qed.

(** X15: a run that got its connection ends by closing it, and closes the
    SFTP channel whenever it got as far as reading the config. *)
Theorem session_is_closed (rt : PyRuntime) (e : env) (a : args)
  (addr : string) (h h' : host) (r : HostResult) (tr : list event) :
  process_host rt e a addr h = (inr r, h', tr) →
  e_connect e = None →
  last tr = Some EvClose ∧ (EvReadConfig ∈ tr → EvCloseSftp ∈ tr).
Proof.
  intros Hhost.
  apply process_host_run in Hhost as (x & sf & Hrun & -> & -> & ->).
  by eapply run_closed.
Qed.

(** X16: when the connection fails, the result is the failure with the
    ["SSH connect failed: "] message, nothing else is attempted and the
    host is as before. *)
Theorem connect_failure (rt : PyRuntime) (e : env) (a : args)
  (addr : string) (h h' : host) (r : HostResult) (tr : list event)
  (y : exn) :
  process_host rt e a addr h = (inr r, h', tr) →
  e_connect e = Some y →
  r = mkResult addr false false false
        ("SSH connect failed: " +:+ describe y) ∧
  h' = h ∧ tr = [EvConnect].
Proof.
  intros Hhost.
  apply process_host_run in Hhost as (x & sf & Hrun & -> & -> & ->).
  intros Hc. by rewrite (run_connect_failed _ _ _ _ _ _ _ Hrun _ Hc).
Qed.

(** X17: on a host that has no config, no run creates one: nothing is
    written and [updated] stays false; a run that gets to open the file
    reports ["read config failed"] with the [FileNotFoundError]. *)
Theorem missing_config_is_not_created (rt : PyRuntime) (e : env) (a : args)
  (addr : string) (h h' : host) (r : HostResult) (tr : list event) :
  process_host rt e a addr h = (inr r, h', tr) →
  live h = None →
  live h' = None ∧ updated r = false ∧ (EvWriteConfig ∉ tr) ∧
  (EvReadConfig ∈ tr → e_read e = None →
   r = mkResult addr false false false
         "read config failed: FileNotFoundError: [Errno 2] No such file").
Proof.
  intros Hhost.
  apply process_host_run in Hhost as (x & sf & Hrun & -> & -> & ->).
  by eapply run_no_config.
Qed.

(** X18: a config that reads and decodes but does not parse gives the
    ["json parse failed: "] failure; one that parses to a document the
    update raises on gives the ["Unhandled error: "] failure; in both cases
    nothing is written and the live config is as before. *)
Theorem bad_document_is_not_written (rt : PyRuntime) (e : env) (a : args)
  (addr : string) (h h' : host) (r : HostResult) (tr : list event)
  (old data : string) :
  process_host rt e a addr h = (inr r, h', tr) →
  EvReadConfig ∈ tr → e_read e = None →
  live h = Some old → utf8_decode rt old = inr data →
  (∀ y, json_loads rt data = inl y →
        r = mkResult addr false false false
              ("json parse failed: " +:+ describe y)) ∧
  (∀ config y,
     json_loads rt data = inr config →
     update_config config (disable_url a) (enable_url a) (new_pools a)
     = inl y →
     r = mkResult addr false false false
           ("Unhandled error: " +:+ describe y)) ∧
  ((∀ config config', json_loads rt data = inr config →
      update_config config (disable_url a) (enable_url a) (new_pools a)
      ≠ inr config') →
   (EvWriteConfig ∉ tr) ∧ live h' = Some old).
Proof.
  intros Hhost.
  apply process_host_run in Hhost as (x & sf & Hrun & -> & -> & ->).
  by eapply run_bad_document.
Qed.

(** X19: a run with the switch requested and no mutation, its session up:
    the result has [success] and [switched] equal to what the reply showed
    and the message ["switchpool: "] followed by the reply's summary; the
    host's files are untouched and no backup is made. *)
Theorem switch_only_run (rt : PyRuntime) (e : env) (a : args)
  (addr : string) (h h' : host) (r : HostResult) (tr : list event)
  (reply : Z * string * string) :
  process_host rt e a addr h = (inr r, h', tr) →
  e_connect e = None → e_resolve_config e = None →
  e_resolve_backup e = None →
  mutation_requested a = false → do_switchpool a = true →
  e_switch e = inr reply →
  r = mkResult addr (remote_send_switchpool rt reply).1 false
        (remote_send_switchpool rt reply).1
        ("switchpool: " +:+ (remote_send_switchpool rt reply).2) ∧
  h' = h ∧
  tr = [EvConnect; EvResolve CONFIG_PATH_RAW; EvResolve BACKUP_DIR_RAW;
        EvSwitchpool; EvClose].
Proof.
  intros Hhost.
  apply process_host_run in Hhost as (x & sf & Hrun & -> & -> & ->).
  by eapply run_switch_only.
Qed.

(** X20: a result with [success] set comes from a run whose catch-all
    handler did not fire and that updated the config or got the switch
    through. *)
Theorem success_means_done (rt : PyRuntime) (e : env) (a : args)
  (addr : string) (h h' : host) (r : HostResult) (tr : list event) :
  process_host rt e a addr h = (inr r, h', tr) →
  success r = true →
  (∀ y, EvUnhandled y ∉ tr) ∧ (updated r = true ∨ switched r = true).
Proof.
  intros Hhost.
  apply process_host_run in Hhost as (x & sf & Hrun & -> & -> & ->).
  intros Hs.
  assert (∀ y, EvUnhandled y ∉ trace sf) as Hno.
  { intros y Hy. destruct (run_unhandled _ _ _ _ _ _ _ Hrun _ Hy) as [Hf _].
    congruence. }
  split; [done|].
  rewrite (run_success_or _ _ _ _ _ _ _ Hrun Hno) in Hs.
  by apply orb_true_iff.
Qed.

End WorkflowExtras.

Section RangeExtras.

Lemma str_contains_dash s : str_contains "-" s = has_char "-" s.
Proof.
  induction s as [|c s IH]; [done|].
  cbn [str_contains has_char String.prefix]. rewrite IH.
  destruct (ascii_dec "-" c) as [<-|Hne].
  - destruct s; done.
  - assert (Ascii.eqb c "-" = false) as -> by (apply Ascii.eqb_neq; congruence).
    done.
Qed.

(** [split_dash] cuts at the first dash. *)
Lemma split_dash_app a b :
  has_char "-" a = false → split_dash (a +:+ "-" +:+ b) = Some (a, b).
Proof.
  induction a as [|c a IH]; [done|]. cbn [has_char].
  intros [Hc Ha]%orb_false_iff.
  change (String c a +:+ "-" +:+ b) with (String c (a +:+ "-" +:+ b)).
  cbn [split_dash]. by rewrite Hc, IH.
Qed.

Lemma split_dash_inv s a b :
  split_dash s = Some (a, b) →
  s = a +:+ "-" +:+ b ∧ has_char "-" a = false.
Proof.
  revert a. induction s as [|c s IH]; intros a; [done|].
  cbn [split_dash]. destruct (Ascii.eqb c "-") eqn:Ec.
  - intros [= <- <-]. apply Ascii.eqb_eq in Ec. by subst c.
  - destruct (split_dash s) as [[a' b']|]; [|done].
    intros [= <- <-]. destruct (IH a' eq_refl) as [-> Ha].
    cbn [has_char String.append]. by rewrite Ec, Ha.
Qed.

Lemma rmap_lookup {A B} (f : A → raises B) l l' (i : nat) x :
  rmap f l = inr l' → l !! i = Some x → ∃ y, f x = inr y ∧ l' !! i = Some y.
Proof.
  intros HF%rmap_Forall2 Hx.
  destruct (Forall2_lookup_l _ _ _ _ _ HF Hx) as (y & Hy & Hf). eauto.
Qed.

Lemma rmap_total {A B} (f : A → raises B) l :
  Forall (fun x => ∃ y, f x = inr y) l → ∃ l', rmap f l = inr l'.
Proof.
  induction 1 as [|x l [y Hy] _ [l' IH]]; [by exists []|].
  exists (y :: l'). cbn [rmap]. by rewrite Hy, IH.
Qed.

(** X21: a range [a-b] whose ends parse to [lo ≤ hi] and whose addresses
    all print expands to the [hi - lo + 1] addresses from [lo] to [hi], in
    order, both ends included. *)
Theorem expand_range_inclusive (rt : PyRuntime) (net : IpLibrary)
  (a b : string) (lo hi : Z) :
  has_char "-" a = false →
  ip_parse net (str_strip rt a) = inr lo →
  ip_parse net (str_strip rt b) = inr hi →
  lo ≤ hi →
  (∀ i, lo ≤ i ≤ hi → ∃ t, ip_format net i = inr t) →
  ∃ l, expand_range rt net (a +:+ "-" +:+ b) = inr l ∧
       length l = Z.to_nat (hi - lo + 1) ∧
       ∀ k : nat, Z.of_nat k ≤ hi - lo →
                  ∃ t, l !! k = Some t ∧
                       ip_format net (lo + Z.of_nat k) = inr t.
Proof.
  intros Ha Hlo Hhi Hle Hfmt. unfold expand_range.
  assert (str_contains "-" (a +:+ "-" +:+ b) = true) as ->.
  { apply str_contains_spec. by exists a, b. }
  rewrite split_dash_app by done. rewrite Hlo, Hhi. cbn [rbind].
  assert ((hi <? lo) = false) as -> by (apply Z.ltb_ge; lia).
  destruct (rmap_total (ip_format net) (seqZ lo (hi + 1 - lo))) as [l Hl].
  { apply Forall_forall. intros i Hi%elem_of_seqZ. apply Hfmt. lia. }
  exists l. split; [done|]. split.
  - apply rmap_Forall2, Forall2_length in Hl.
    rewrite <- Hl, length_seqZ. f_equal. lia.
  - intros k Hk.
    destruct (rmap_lookup _ _ _ k (lo + Z.of_nat k) Hl) as (t & Ht & Hlk).
    { apply lookup_seqZ_lt. lia. }
    eauto.
Qed.

(** X22: a range whose end is below its start is refused with a
    [ValueError], and no address is printed. *)
Theorem expand_range_reversed (rt : PyRuntime) (net : IpLibrary)
  (a b : string) (lo hi : Z) :
  has_char "-" a = false →
  ip_parse net (str_strip rt a) = inr lo →
  ip_parse net (str_strip rt b) = inr hi →
  hi < lo →
  expand_range rt net (a +:+ "-" +:+ b)
  = inl (Exn "ValueError" "Range end must be >= start" false).
Proof.
  intros Ha Hlo Hhi Hlt. unfold expand_range.
  assert (str_contains "-" (a +:+ "-" +:+ b) = true) as ->.
  { apply str_contains_spec. by exists a, b. }
  rewrite split_dash_app by done. rewrite Hlo, Hhi. cbn [rbind].
  by assert ((hi <? lo) = true) as -> by (apply Z.ltb_lt; lia).
Qed.

(** X23: a string without a dash is returned as the only host, without
    being parsed. *)
Theorem expand_range_single (rt : PyRuntime) (net : IpLibrary) (s : string) :
  has_char "-" s = false → expand_range rt net s = inr [s].
Proof.
  intros Hs. unfold expand_range. by rewrite str_contains_dash, Hs.
Qed.

(** X24: whenever the string holds a dash, the two ends are what stands
    before and after the first dash: the unpacking at line 80 never
    fails. *)
Theorem expand_range_unpacks (rt : PyRuntime) (net : IpLibrary) (s : string) :
  has_char "-" s = true →
  ∃ a b, s = a +:+ "-" +:+ b ∧ has_char "-" a = false ∧
         expand_range rt net s =
           (let* lo := ip_parse net (str_strip rt a) in
            let* hi := ip_parse net (str_strip rt b) in
            if hi <? lo then
              inl (Exn "ValueError" "Range end must be >= start" false)
            else rmap (ip_format net) (seqZ lo (hi + 1 - lo))).
Proof.
  intros Hs.
  assert (∃ a b, split_dash s = Some (a, b)) as (a & b & Hab).
  { clear rt net. induction s as [|c s IH]; [done|]. cbn [split_dash].
    cbn [has_char] in Hs. destruct (Ascii.eqb c "-"); [eauto|].
    destruct (IH Hs) as (a & b & ->). eauto. }
  exists a, b. destruct (split_dash_inv _ _ _ Hab) as [Heq Ha].
  split; [done|]. split; [done|].
  unfold expand_range. by rewrite str_contains_dash, Hs, Hab.
Qed.

End RangeExtras.

Section MainExtras.

Lemma fold_tally_counts (g : job → HostResult) (l : list job) (s : summary) :
  let s' := fold_left (fun s j => tally s (g j)) l s in
  succeeded s' = (succeeded s + length (filter (fun r => success r = true) (map g l)))%nat ∧
  failed s' = (failed s + length (filter (fun r => success r = false) (map g l)))%nat.
Proof.
  revert s. induction l as [|j l IH]; intros s; cbn [fold_left map].
  - cbn. lia.
  - destruct (IH (tally s (g j))) as [Hs Hf]. cbn zeta in *.
    rewrite Hs, Hf. unfold tally. rewrite !filter_cons.
    destruct (success (g j)) eqn:E; cbn [succeeded failed];
      repeat case_decide; try done; cbn [length]; lia.
Qed.

(** X25: the counters of the collection loop agree with the results
    collected: [succeeded] counts the results with [success] set, [failed]
    the others. *)
Theorem counters_agree (rt : PyRuntime) (a : args) (hosts : list job)
  (sched : list nat) :
  let s := run_batch rt a hosts sched in
  succeeded s = length (filter (fun r => success r = true) (results s)) ∧
  failed s = length (filter (fun r => success r = false) (results s)).
Proof.
  intros s. subst s. unfold run_batch.
  destruct (fold_tally_counts (collect rt a)
              (as_completed sched hosts (length hosts)) (Summary [] 0 0))
    as [Hs Hf].
  destruct (fold_tally (collect rt a)
              (as_completed sched hosts (length hosts)) (Summary [] 0 0))
    as [Hr _].
  cbn zeta in *. cbn [results succeeded failed app Nat.add] in *.
  by rewrite Hs, Hf, Hr.
Qed.

Lemma load_new_pools_list w c np :
  load_new_pools w c = inr np →
  (np = None ∧ truthy (cli_set_pools_json c) = false) ∨
  (∃ l, np = Some (JArr l) ∧ truthy (cli_set_pools_json c) = true).
Proof.
  unfold load_new_pools, truthy.
  destruct (cli_set_pools_json c) as [path|]; [|intros [= <-]; by left].
  destruct (String.eqb path ""); cbn [negb]; [intros [= <-]; by left|].
  destruct (w_load_json w path) as [|v]; [done|]. cbn [rbind].
  destruct v; try done. intros [= <-]. right. eauto.
Qed.

(** X26: when [main] starts the runs, the worker count is positive,
    there is at least one host, every run gets the same arguments, these
    ask for something (a mutation or the switch command), and the
    replacement pools, when given, are a list. *)
Theorem main_starts_runs_with (rt : PyRuntime) (net : IpLibrary) (w : world)
  (c : cli) (code : Z) (s : summary) :
  main rt net w c = (code, Some s) →
  ∃ hosts np,
    select_hosts rt net w c = inr hosts ∧ hosts ≠ [] ∧
    load_new_pools w c = inr np ∧
    s = run_batch rt (host_args c np)
          (map (fun ip => Job ip (w_fleet w ip).1 (w_fleet w ip).2) hosts)
          (w_sched w) ∧
    mutation_requested (host_args c np) || do_switchpool (host_args c np)
    = true ∧
    (np = None ∨ ∃ l, np = Some (JArr l)) ∧
    0 < cli_workers c.
Proof.
  unfold main.
  destruct (negb _) eqn:Hany; [done|]. apply negb_false_iff in Hany.
  destruct (select_hosts rt net w c) as [|hosts]; [done|].
  destruct (load_new_pools w c) as [|np] eqn:Hnp; [done|].
  destruct (length hosts =? 0)%nat eqn:Hlen; [done|].
  unfold run_pool, executor.
  destruct (cli_workers c <=? 0) eqn:Hw; cbn [rbind]; [done|].
  apply Z.leb_gt in Hw.
  intros [= <- <-]. exists hosts, np.
  apply Nat.eqb_neq in Hlen.
  split; [done|]. split; [by destruct hosts|]. split; [done|].
  split; [done|].
  destruct (load_new_pools_list _ _ _ Hnp) as [[-> Hp]|(l & -> & Hp)].
  - split; [|split; [by left|done]]. unfold mutation_requested, host_args.
    cbn [disable_url enable_url new_pools do_switchpool].
    rewrite Hp in Hany. by rewrite orb_false_r in *.
  - split; [|split; [right; eauto|done]].
    unfold mutation_requested, host_args.
    cbn [new_pools]. by rewrite orb_true_r.
Qed.

Lemma run_batch_results rt a hosts sched :
  results (run_batch rt a hosts sched)
  = map (collect rt a) (as_completed sched hosts (length hosts)).
Proof.
  unfold run_batch.
  by destruct (fold_tally (collect rt a)
                 (as_completed sched hosts (length hosts)) (Summary [] 0 0))
    as [-> _].
Qed.

Lemma run_batch_failed rt a hosts sched :
  failed (run_batch rt a hosts sched)
  = length (filter (fun r => success r = false)
              (results (run_batch rt a hosts sched))).
Proof.
  unfold run_batch.
  destruct (fold_tally_counts (collect rt a)
              (as_completed sched hosts (length hosts)) (Summary [] 0 0))
    as [_ Hf].
  destruct (fold_tally (collect rt a)
              (as_completed sched hosts (length hosts)) (Summary [] 0 0))
    as [Hr _].
  cbn zeta in *. cbn [results succeeded failed app Nat.add] in *.
  by rewrite Hf, Hr.
Qed.

Lemma no_failure_all_success (l : list HostResult) :
  length (filter (fun r => success r = false) l) = 0%nat ↔
  Forall (fun r => success r = true) l.
Proof.
  induction l as [|r l IH]; [done|].
  rewrite filter_cons, Forall_cons. case_decide as Hr; cbn [length].
  - split; [done|]. intros [Hs _]. congruence.
  - rewrite IH. split; [|tauto]. intros Hl. split; [|done].
    by destruct (success r).
Qed.

Lemma some_failure_exists (l : list HostResult) :
  length (filter (fun r => success r = false) l) ≠ 0%nat ↔
  Exists (fun r => success r = false) l.
Proof.
  induction l as [|r l IH].
  - split; [done|]. by intros ?%Exists_nil.
  - rewrite filter_cons, Exists_cons. case_decide as Hr; cbn [length].
    + split; [by left|done].
    + rewrite IH. tauto.
Qed.

(** X27: the exit status of [main] is 0, 1 or 2, and 2 means that no run
    was started.  When runs were started the worker count is positive, the
    status is 0 exactly when every result has [success] set and 1 exactly
    when some result has not, and one result was collected per selected
    host.  A worker count that is not positive never starts a run; status 1
    without a run means that the pool refused the worker count, with hosts
    selected; status 0 without a run means that no host was selected. *)
Theorem main_exit_status (rt : PyRuntime) (net : IpLibrary) (w : world)
  (c : cli) :
  let code := (main rt net w c).1 in
  let report := (main rt net w c).2 in
  (code = 0 ∨ code = 1 ∨ code = 2) ∧
  (code = 2 → report = None) ∧
  (∀ s, report = Some s →
        0 < cli_workers c ∧
        (code = 0 ↔ Forall (fun r => success r = true) (results s)) ∧
        (code = 1 ↔ Exists (fun r => success r = false) (results s)) ∧
        ∃ hosts, select_hosts rt net w c = inr hosts ∧
                 length (results s) = length hosts) ∧
  (cli_workers c ≤ 0 → report = None) ∧
  (report = None → code = 1 →
   cli_workers c ≤ 0 ∧
   ∃ hosts, select_hosts rt net w c = inr hosts ∧ hosts ≠ []) ∧
  (report = None → code = 0 → select_hosts rt net w c = inr []).
Proof.
  intros code report. subst code report. unfold main.
  destruct (negb _); [cbn; repeat split; (tauto || done)|].
  destruct (select_hosts rt net w c) as [|hosts];
    [cbn; repeat split; (tauto || done)|].
  destruct (load_new_pools w c) as [|np];
    [cbn; repeat split; (tauto || done)|].
  destruct (length hosts =? 0)%nat eqn:Hlen.
  { apply Nat.eqb_eq in Hlen. destruct hosts; [|done].
    cbn; repeat split; (tauto || done). }
  apply Nat.eqb_neq in Hlen.
  unfold run_pool, executor.
  destruct (cli_workers c <=? 0) eqn:Hw; cbn [rbind fst snd].
  { apply Z.leb_le in Hw. split; [tauto|]. split; [done|]. split; [done|].
    split; [done|]. split; [|done].
    intros _ _. split; [done|]. exists hosts. split; [done|].
    by destruct hosts. }
  apply Z.leb_gt in Hw.
  set (jobs := map (fun ip => Job ip (w_fleet w ip).1 (w_fleet w ip).2) hosts).
  set (s := run_batch rt (host_args c np) jobs (w_sched w)).
  pose proof (run_batch_failed rt (host_args c np) jobs (w_sched w)) as Hf.
  fold s in Hf.
  assert (length (results s) = length hosts) as Hres.
  { subst s. rewrite run_batch_results, length_map.
    rewrite (Permutation_length (as_completed_perm _ _)).
    subst jobs. apply length_map. }
  pose proof (no_failure_all_success (results s)) as Hall.
  pose proof (some_failure_exists (results s)) as Hex.
  rewrite <- Hf in Hall, Hex.
  destruct (failed s =? 0)%nat eqn:E.
  - apply Nat.eqb_eq in E. split; [tauto|]. split; [done|].
    split; [|split; [lia|done]].
    intros s' [= <-]. split; [done|]. split; [tauto|]. split; [|eauto].
    split; [done|]. intros H%Hex. done.
  - apply Nat.eqb_neq in E. split; [tauto|]. split; [done|].
    split; [|split; [lia|done]].
    intros s' [= <-]. split; [done|]. split; [|split; [tauto|eauto]].
    split; [done|]. intros H%Hall. done.
Qed.

End MainExtras.

Section Examples.

(** A complete rotation on a directory with gaps: slot 5 goes, slots 1 and
    3 move up, the snapshot and slot 1 receive the live config. *)
Example rotation_shifts :
  rotate Sample.no_faults (Some "new")
    (<[slot 1 := "a"]> (<[slot 3 := "c"]> (<[slot 5 := "e"]> ∅)))
  = (0, <[orig_name := "new"]> (<[slot 1 := "new"]>
          (<[slot 2 := "a"]> (<[slot 4 := "c"]> ∅)))).
Proof. vm_compute. reflexivity. Qed.

(** Without a live config both copies fail and the script still exits
    with status 0. *)
Example rotation_without_live_config :
  rotate Sample.no_faults None (<[slot 1 := "a"]> ∅)
  = (0, <[slot 2 := "a"]> ∅).
Proof. vm_compute. reflexivity. Qed.

(** A failing [mv] stops the script: slot 4 has moved, slots 3 and below
    have not, and nothing but the old slot 5 is lost. *)
Example rotation_stopped :
  rotate (Faults None None false None
            (fun i => if (i =? 3)%nat then Some (Fault 1 "mv: failed")
                      else None) false Untouched Untouched)
         (Some "new")
         (<[orig_name := "o"]> (<[slot 3 := "c"]> (<[slot 4 := "d"]>
            (<[slot 5 := "e"]> ∅))))
  = (1, <[orig_name := "o"]> (<[slot 3 := "c"]> (<[slot 5 := "d"]> ∅))).
Proof. vm_compute. reflexivity. Qed.

(** A switch-only request on a host where nothing listens on the control
    port: no backup, no read, no write, and a failed result. *)
Example switch_only_refused :
  process_host Sample.rt
    (Sample.calm (inr (0, "telnet: Connection refused", "")))
    (Args None None None true) "10.10.10.120" Sample.fresh_host
  = (inr (mkResult "10.10.10.120" false false false
            "switchpool: telnet: connection refused"),
     Sample.fresh_host,
     [EvConnect; EvResolve CONFIG_PATH_RAW; EvResolve BACKUP_DIR_RAW;
      EvSwitchpool; EvClose]).
Proof. vm_compute. reflexivity. Qed.

(** Disabling a pool of a config with two pools. *)
Example disable_first_pool :
  update_config Sample.two_pools (Some Sample.vipor) None None
  = inr Sample.two_pools_disabled.
Proof. reflexivity. Qed.

(** Results come back in completion order, one per host. *)
Example batch_of_three :
  let ok := Sample.calm (inr (0, "OK|", "")) in
  let silent := Sample.calm (inr (0, "", "")) in
  map Workflow.ip
    (results (run_batch Sample.rt (Args None None None true)
                [Job "10.10.10.1" ok Sample.fresh_host;
                 Job "10.10.10.2" silent Sample.fresh_host;
                 Job "10.10.10.3" silent Sample.fresh_host]
                [1; 1]%nat))
  = ["10.10.10.2"; "10.10.10.3"; "10.10.10.1"].
Proof. vm_compute. reflexivity. Qed.

End Examples.

Section Witnesses.

(** C1 at work: the backup directory cannot be created, the run stops with
    the script's diagnostic and the live config is as before. *)
Lemma C1_witness :
  let o := process_host Sample.rt (Sample.no_backup_dir (inr (0, "", "")))
             Sample.disable_vipor "10.10.10.100" Sample.fresh_host in
  EvRotate false ∈ o.2 ∧
  o.1.1 = inr (mkResult "10.10.10.100" false false false
                 ("backup failed: "
                  +:+ "mkdir: cannot create directory: Permission denied")) ∧
  live o.1.2 = Some "{}".
Proof.
  intros o.
  assert (EvRotate false ∈ o.2) as Hrot by (vm_compute; mem).
  assert (o = (inr (mkResult "10.10.10.100" false false false
                      ("backup failed: "
                       +:+ "mkdir: cannot create directory: Permission denied")),
               o.1.2, o.2)) as Ho by (vm_compute; reflexivity).
  destruct (C1_backup_before_mutate _ _ _ _ _ _ _ _ Ho Hrot)
    as (_ & _ & _ & _ & _ & _ & _ & _ & _ & Hlive).
  split; [exact Hrot|]. split; [by rewrite Ho|exact Hlive].
Defined.

(** C6 at work on a config with two pools. *)
Lemma C6_witness :
  update_config Sample.two_pools (Some Sample.vipor) None None
  = inr Sample.two_pools_disabled ∧
  ∃ d d',
    Sample.two_pools = JObj d ∧ Sample.two_pools_disabled = JObj d' ∧
    dict_get "user" d' = dict_get "user" d ∧
    dict_get "threads" d' = dict_get "threads" d ∧
    d'.*1 = d.*1.
Proof.
  assert (update_config Sample.two_pools (Some Sample.vipor) None None
          = inr Sample.two_pools_disabled) as Hup by reflexivity.
  split; [exact Hup|].
  destruct (C6_field_preservation _ _ _ _ Hup)
    as (d & d' & Hd & Hd' & Hother & Hkeys & _).
  exists d, d'. repeat split; try done.
  - by apply Hother.
  - by apply Hother.
  - rewrite Hkeys. injection Hd as <-. cbn. reflexivity.
Defined.

(** C7 at work: the update goes through, nothing listens on the control
    port, and the run still counts as a success. *)
Lemma C7_witness :
  let o := process_host Sample.rt
             (Sample.calm (inr (0, "telnet: Connection refused", "")))
             Sample.disable_vipor "10.10.10.100" Sample.fresh_host in
  (∀ y, EvUnhandled y ∉ o.2) ∧
  ∃ r, o.1.1 = inr r ∧ updated r = true ∧ switched r = false ∧
       success r = true.
Proof.
  intros o.
  assert (∀ y, EvUnhandled y ∉ o.2) as Hno.
  { intros y Hy. vm_compute in Hy. mem_inv Hy. }
  destruct o as [[[y|r] h'] tr] eqn:Ho; [by vm_compute in Ho|].
  destruct (C7_success_flag _ _ _ _ _ _ _ _ Ho) as (Hflag & _).
  destruct (Hflag Hno) as (Hs & Hu & _).
  split; [exact Hno|]. exists r.
  assert (updated r = true ∧ switched r = false) as [Hup Hsw].
  { vm_compute in Ho. injection Ho as <- _ _. by split. }
  repeat split; auto.
Defined.

(** C9 at work: three hosts and two workers; the first host cannot be
    reached and the path resolution raises on the second; three results
    come back, the second host's with the handler's message. *)
Lemma C9_witness :
  let ok := Sample.calm (inr (0, "OK|", "")) in
  let unreachable :=
    Env None (Some Demo.timed_out) None None None Sample.no_faults
        None None None (inr (0, "OK|", "")) in
  let broken :=
    Env None None (Some (Exn "SSHException" "Channel closed." false)) None
        None Sample.no_faults None None None (inr (0, "OK|", "")) in
  let hosts := [Job "10.10.10.1" unreachable Sample.fresh_host;
                Job "10.10.10.2" broken Sample.fresh_host;
                Job "10.10.10.3" ok Sample.fresh_host] in
  0 < 2 ∧
  ∃ s, run_pool Sample.rt (Args None None None true) hosts [1; 1]%nat 2
       = inr s ∧
       length (results s) = 3%nat ∧
       collect Sample.rt (Args None None None true)
         (Job "10.10.10.2" broken Sample.fresh_host)
       = mkResult "10.10.10.2" false false false
           "Unhandled error: SSHException: Channel closed.".
Proof.
  intros ok unreachable broken hosts.
  assert (0 < 2) as Hw by lia.
  split; [exact Hw|].
  destruct (C9_result_completeness Sample.rt (Args None None None true)
              hosts [1; 1]%nat 2) as (_ & Hpool & Hjob).
  destruct (Hpool Hw) as (s & Hs & Hlen & _).
  exists s. split; [exact Hs|]. split; [exact Hlen|].
  destruct (Hjob (Job "10.10.10.2" broken Sample.fresh_host))
    as (_ & _ & _ & Hres & _).
  exact (Hres eq_refl eq_refl _ eq_refl).
Defined.

(** C10 at work: one pool, named by both targets. *)
Lemma C10_witness :
  Sample.vipor ≠ "" ∧
  update_pools_list
    (JArr [JObj [("url", JStr Sample.vipor); ("disabled", JInt 0)]])
    (Some Sample.vipor) (Some Sample.vipor) None
  = inr (JArr [JObj [("url", JStr Sample.vipor); ("disabled", JInt 1)]]) ∧
  ∃ (ps' : list json) d',
    ps' !! 0%nat = Some (JObj d') ∧ py_eq_int (py_get "disabled" d') 1 = true.
Proof.
  assert (Sample.vipor ≠ "") as Hne by done.
  assert (update_pools_list
            (JArr [JObj [("url", JStr Sample.vipor); ("disabled", JInt 0)]])
            (Some Sample.vipor) (Some Sample.vipor) None
          = inr (JArr [JObj [("url", JStr Sample.vipor);
                             ("disabled", JInt 1)]])) as Hup
    by reflexivity.
  split; [exact Hne|]. split; [exact Hup|].
  destruct (C10_disable_wins Sample.vipor _ _ 0%nat _ Hne Hup eq_refl eq_refl)
    as (ps' & d' & _ & Hi & H1 & _).
  by exists ps', d'.
Defined.

End Witnesses.

Section PoolsAndBackupWitnesses.

(** X1 at work: both targets absent or empty. *)
Lemma update_without_targets_witness :
  truthy (Some "") = false ∧ truthy None = false ∧
  update_pools_list (JArr [JInt 7; JStr "x"]) (Some "") None None
  = inr (JArr [JInt 7; JStr "x"]).
Proof.
  split; [reflexivity|]. split; [reflexivity|].
  apply update_without_targets; reflexivity.
Defined.

(** X2 at work on a list of one pool. *)
Lemma update_dicts_total_witness :
  Forall (fun p => is_dict p = true) [JObj [("url", JStr Sample.vipor)]] ∧
  ∃ ps', update_pools_list (JArr [JObj [("url", JStr Sample.vipor)]])
           (Some Sample.vipor) None None = inr (JArr ps') ∧
         length ps' = 1%nat.
Proof.
  assert (Forall (fun p => is_dict p = true)
            [JObj [("url", JStr Sample.vipor)]]) as H
    by (repeat constructor).
  split; [exact H|].
  destruct (update_dicts_total _ (Some Sample.vipor) None H)
    as (ps' & Hup & Hlen & _).
  exists ps'. by split.
Defined.

(** X3 at work: a string among the pools. *)
Lemma update_rejects_non_dict_witness :
  Forall (fun q => is_dict q = true) [JObj [("url", JStr Sample.vipor)]] ∧
  is_dict (JStr "oops") = false ∧
  truthy (Some Sample.vipor) || truthy None = true ∧
  update_pools_list
    (JArr [JObj [("url", JStr Sample.vipor)]; JStr "oops"; JInt 1])
    (Some Sample.vipor) None None
  = inl (Exn "AttributeError" "'str' object has no attribute 'get'" false).
Proof.
  assert (Forall (fun q => is_dict q = true)
            [JObj [("url", JStr Sample.vipor)]]) as H
    by (repeat constructor).
  split; [exact H|]. split; [reflexivity|]. split; [reflexivity|].
  exact (update_rejects_non_dict [JObj [("url", JStr Sample.vipor)]]
           [JInt 1] (JStr "oops") (Some Sample.vipor) None
           H eq_refl eq_refl).
Defined.

(** X4 at work: the enable target names no pool of the list. *)
Lemma update_absent_url_witness :
  update_pools_list
    (JArr [JObj [("url", JStr Sample.vipor_west); ("disabled", JInt 1)]])
    None (Some Sample.vipor) None
  = inr (JArr [JObj [("url", JStr Sample.vipor_west); ("disabled", JInt 1)]]).
Proof.
  apply update_absent_url.
  - repeat constructor.
  - intros u Hu. discriminate Hu.
  - intros u [= <-]. repeat constructor.
Defined.

(** X5 at work: a disabled pool is enabled. *)
Lemma update_takes_effect_witness :
  update_pools_list
    (JArr [JObj [("url", JStr Sample.vipor); ("disabled", JInt 1)]])
    None (Some Sample.vipor) None
  = inr (JArr [JObj [("url", JStr Sample.vipor); ("disabled", JInt 0)]]) ∧
  Forall (fun p' => has_url Sample.vipor p' = true →
            ∃ d', p' = JObj d' ∧ py_eq_int (py_get "disabled" d') 0 = true)
    [JObj [("url", JStr Sample.vipor); ("disabled", JInt 0)]].
Proof.
  assert (update_pools_list
            (JArr [JObj [("url", JStr Sample.vipor); ("disabled", JInt 1)]])
            None (Some Sample.vipor) None
          = inr (JArr [JObj [("url", JStr Sample.vipor);
                             ("disabled", JInt 0)]])) as Hup
    by reflexivity.
  split; [exact Hup|].
  destruct (update_takes_effect _ _ _ _ Hup) as (ps' & [= <-] & _ & Hen).
  apply (Hen Sample.vipor eq_refl); done.
Defined.

(** X7 at work on a config that has only a user. *)
Lemma update_config_missing_pools_witness :
  dict_get "pools" [("user", JStr "RAddress.worker")] = None ∧
  update_config (JObj [("user", JStr "RAddress.worker")])
    (Some Sample.vipor) None None
  = inr (JObj [("user", JStr "RAddress.worker"); ("pools", JArr [])]).
Proof.
  split; [reflexivity|].
  exact (update_config_missing_pools [("user", JStr "RAddress.worker")]
           (Some Sample.vipor) None eq_refl).
Defined.

(** X8 at work on a directory holding slots 1 and 5, the last [cp]
    stopping after two bytes. *)
Lemma rotate_exact_witness :
  let f := Faults None None false None (fun _ => None) true
             Untouched (Truncated 2) in
  let files := <[slot 1 := "a"]> (<[slot 5 := "e"]> ∅) in
  (rotate f (Some "new") files).1 = 0 ∧
  (rotate f (Some "new") files).2 !! slot 2 = Some "a" ∧
  (rotate f (Some "new") files).2 !! slot 5 = None ∧
  (rotate f (Some "new") files).2 !! slot 1 = Some "ne" ∧
  (rotate f (Some "new") files).2 !! orig_name = Some "new".
Proof.
  intros f files.
  assert ((rotate f (Some "new") files).1 = 0) as H0
    by (vm_compute; reflexivity).
  split; [exact H0|].
  destruct (rotate_exact f (Some "new") files H0)
    as (Hs & H5 & H1 & Ho & _).
  split; [|split; [|split]].
  - rewrite (Hs 1%nat) by lia. vm_compute. reflexivity.
  - rewrite H5. vm_compute. reflexivity.
  - rewrite H1. vm_compute. reflexivity.
  - rewrite Ho. vm_compute. reflexivity.
Defined.

(** X10 at work: two rotations after a first backup. *)
Lemma rotations_history_witness :
  Forall (fun r : faults * string => fault_free r.1)
    [(Sample.no_faults, "v1"); (Sample.no_faults, "v2")] ∧
  slots (rotations [(Sample.no_faults, Some "v1"); (Sample.no_faults, Some "v2")]
           (<[slot 1 := "v0"]> ∅))
  = [Some "v2"; Some "v1"; Some "v0"; None; None].
Proof.
  assert (Forall (fun r : faults * string => fault_free r.1)
            [(Sample.no_faults, "v1"); (Sample.no_faults, "v2")]) as H.
  { repeat constructor. }
  split; [exact H|].
  pose proof (rotations_history _ (<[slot 1 := "v0"]> ∅) H) as Hh.
  cbn [fmap list_fmap prod_map id fst snd] in Hh. rewrite Hh.
  vm_compute. reflexivity.
Defined.

End PoolsAndBackupWitnesses.

Section RunWitnesses.

(** X11 at work on a run that goes through. *)
Lemma write_comes_last_witness :
  let o := process_host Sample.rt (Sample.calm (inr (0, "OK|", "")))
             Sample.disable_vipor "10.10.10.100" Sample.fresh_host in
  EvWriteConfig ∈ o.2 ∧
  ∃ rest, o.2 = (write_prefix ++ rest)%list ∧ EvWriteConfig ∉ rest.
Proof.
  intros o.
  assert (EvWriteConfig ∈ o.2) as Hw by (vm_compute; mem).
  destruct o as [[[y|r] h'] tr] eqn:Ho; [by vm_compute in Ho|].
  split; [exact Hw|].
  exact (write_comes_last _ _ _ _ _ _ _ _ Ho Hw).
Defined.

(** X12 at work: the empty config gets its pools list. *)
Lemma updated_means_written_witness :
  let o := process_host Sample.rt (Sample.calm (inr (0, "OK|", "")))
             Sample.disable_vipor "10.10.10.100" Sample.fresh_host in
  ∃ r, o.1.1 = inr r ∧ updated r = true ∧
       live o.1.2 = Some Sample.empty_pools_text ∧
       backups o.1.2
       = (rotate Sample.no_faults (Some "{}") ∅).2.
Proof.
  intros o.
  destruct o as [[[y|r] h'] tr] eqn:Ho; [by vm_compute in Ho|].
  assert (updated r = true) as Hu.
  { vm_compute in Ho. by injection Ho as <- _ _. }
  destruct (updated_means_written _ _ _ _ _ _ _ _ Ho Hu)
    as (old & data & config & config' & text & Hold & Hdec & Hload & Hup
        & Hdump & Hlive & _ & Hbak).
  exists r. split; [reflexivity|]. split; [exact Hu|].
  split; [|exact Hbak].
  cbn in Hold. injection Hold as <-.
  vm_compute in Hdec. injection Hdec as <-.
  vm_compute in Hload. injection Hload as <-.
  vm_compute in Hup. injection Hup as <-.
  vm_compute in Hdump. injection Hdump as <-.
  cbn [fst snd]. rewrite Hlive. vm_compute. reflexivity.
Defined.

(** X13 at work: the write fails after truncating the file. *)
Lemma failed_write_ends_run_witness :
  let e := Env None None None None None Sample.no_faults None None
             (Some Demo.lost_write) (inr (0, "OK|", "")) in
  let o := process_host Sample.rt e Sample.disable_vipor "10.10.10.100"
             Sample.fresh_host in
  EvWriteConfig ∈ o.2 ∧
  o.1.1 = inr (mkResult "10.10.10.100" false false false
                 "write config failed: OSError: Failure") ∧
  live o.1.2 = Some "" ∧ (EvSwitchpool ∉ o.2).
Proof.
  intros e o.
  assert (EvWriteConfig ∈ o.2) as Hw by (vm_compute; mem).
  destruct o as [[[y|r] h'] tr] eqn:Ho; [by vm_compute in Ho|].
  destruct (failed_write_ends_run _ _ _ _ _ _ _ _ Demo.lost_write Ho Hw eq_refl)
    as (Hr & Hl & Hs).
  split; [exact Hw|]. split; [by rewrite Hr|]. split; [exact Hl|exact Hs].
Defined.

(** X14 at work on a run that goes through. *)
Lemma switch_follows_update_witness :
  let o := process_host Sample.rt (Sample.calm (inr (0, "OK|", "")))
             Sample.disable_vipor "10.10.10.100" Sample.fresh_host in
  mutation_requested Sample.disable_vipor = true ∧
  do_switchpool Sample.disable_vipor = true ∧
  ∃ r, o.1.1 = inr r ∧ (EvSwitchpool ∈ o.2 ↔ updated r = true).
Proof.
  intros o.
  destruct o as [[[y|r] h'] tr] eqn:Ho; [by vm_compute in Ho|].
  split; [reflexivity|]. split; [reflexivity|].
  exists r. split; [reflexivity|].
  exact (switch_follows_update _ _ _ _ _ _ _ _ Ho eq_refl eq_refl).
Defined.

(** X15 at work on a run that goes through. *)
Lemma session_is_closed_witness :
  let o := process_host Sample.rt (Sample.calm (inr (0, "OK|", "")))
             Sample.disable_vipor "10.10.10.100" Sample.fresh_host in
  e_connect (Sample.calm (inr (0, "OK|", ""))) = None ∧
  last o.2 = Some EvClose ∧ (EvReadConfig ∈ o.2 → EvCloseSftp ∈ o.2).
Proof.
  intros o.
  destruct o as [[[y|r] h'] tr] eqn:Ho; [by vm_compute in Ho|].
  split; [reflexivity|].
  exact (session_is_closed _ _ _ _ _ _ _ _ Ho eq_refl).
Defined.

(** X16 at work: the connection times out. *)
Lemma connect_failure_witness :
  let e := Env None (Some Demo.timed_out) None None None Sample.no_faults
             None None None (inr (0, "OK|", "")) in
  process_host Sample.rt e Sample.disable_vipor "10.10.10.100"
    Sample.fresh_host
  = (inr (mkResult "10.10.10.100" false false false
            "SSH connect failed: TimeoutError: timed out"),
     Sample.fresh_host, [EvConnect]).
Proof.
  intros e.
  destruct (process_host Sample.rt e Sample.disable_vipor "10.10.10.100"
              Sample.fresh_host) as [[[y|r] h'] tr] eqn:Ho;
    [by vm_compute in Ho|].
  destruct (connect_failure _ _ _ _ _ _ _ _ Demo.timed_out Ho eq_refl)
    as (-> & -> & ->).
  reflexivity.
Defined.

(** X17 at work on a host without a config. *)
Lemma missing_config_is_not_created_witness :
  let o := process_host Sample.rt (Sample.calm (inr (0, "OK|", "")))
             Sample.disable_vipor "10.10.10.100" (Host None ∅) in
  live (Host None ∅) = None ∧
  live o.1.2 = None ∧ (EvWriteConfig ∉ o.2) ∧
  o.1.1 = inr (mkResult "10.10.10.100" false false false
             "read config failed: FileNotFoundError: [Errno 2] No such file").
Proof.
  intros o.
  assert (EvReadConfig ∈ o.2) as Hread by (vm_compute; mem).
  destruct o as [[[y|r] h'] tr] eqn:Ho; [by vm_compute in Ho|].
  destruct (missing_config_is_not_created _ _ _ _ _ _ _ _ Ho eq_refl)
    as (Hl & _ & Hw & Hr).
  split; [reflexivity|]. split; [exact Hl|]. split; [exact Hw|].
  by rewrite (Hr Hread eq_refl).
Defined.

(** X18 at work: the config is not JSON. *)
Lemma bad_document_is_not_written_witness :
  let o := process_host Demo.rt (Sample.calm (inr (0, "OK|", "")))
             Sample.disable_vipor "10.10.10.100" (Host (Some "not json") ∅) in
  EvReadConfig ∈ o.2 ∧
  utf8_decode Demo.rt "not json" = inr "not json" ∧
  o.1.1 = inr (mkResult "10.10.10.100" false false false
             ("json parse failed: JSONDecodeError: "
              +:+ "Expecting value: line 1 column 1 (char 0)")) ∧
  (EvWriteConfig ∉ o.2) ∧ live o.1.2 = Some "not json".
Proof.
  intros o.
  assert (EvReadConfig ∈ o.2) as Hread by (vm_compute; mem).
  destruct o as [[[y|r] h'] tr] eqn:Ho; [by vm_compute in Ho|].
  destruct (bad_document_is_not_written _ _ _ _ _ _ _ _ "not json" "not json"
              Ho Hread eq_refl eq_refl eq_refl) as (Hparse & _ & Hkeep).
  split; [exact Hread|]. split; [reflexivity|].
  split; [by rewrite (Hparse _ eq_refl)|].
  apply Hkeep. intros config config' Hl. discriminate Hl.
Defined.

(** X19 at work: the control port answers. *)
Lemma switch_only_run_witness :
  process_host Sample.rt (Sample.calm (inr (0, "OK|", "")))
    (Args None None None true) "10.10.10.120" Sample.fresh_host
  = (inr (mkResult "10.10.10.120" true false true "switchpool: switchpool ok"),
     Sample.fresh_host,
     [EvConnect; EvResolve CONFIG_PATH_RAW; EvResolve BACKUP_DIR_RAW;
      EvSwitchpool; EvClose]).
Proof.
  destruct (process_host Sample.rt (Sample.calm (inr (0, "OK|", "")))
              (Args None None None true) "10.10.10.120" Sample.fresh_host)
    as [[[y|r] h'] tr] eqn:Ho; [by vm_compute in Ho|].
  destruct (switch_only_run _ _ _ _ _ _ _ _ (0, "OK|", "") Ho
              eq_refl eq_refl eq_refl eq_refl eq_refl eq_refl)
    as (-> & -> & ->).
  reflexivity.
Defined.

(** X20 at work on a run that goes through. *)
Lemma success_means_done_witness :
  let o := process_host Sample.rt (Sample.calm (inr (0, "OK|", "")))
             Sample.disable_vipor "10.10.10.100" Sample.fresh_host in
  ∃ r, o.1.1 = inr r ∧ success r = true ∧
       (∀ y, EvUnhandled y ∉ o.2) ∧ (updated r = true ∨ switched r = true).
Proof.
  intros o.
  destruct o as [[[y|r] h'] tr] eqn:Ho; [by vm_compute in Ho|].
  assert (success r = true) as Hs.
  { vm_compute in Ho. by injection Ho as <- _ _. }
  exists r. split; [reflexivity|]. split; [exact Hs|].
  exact (success_means_done _ _ _ _ _ _ _ _ Ho Hs).
Defined.

End RunWitnesses.

Section RangeWitnesses.

(** X21 at work on a range of three addresses. *)
Lemma expand_range_inclusive_witness :
  (∀ i, 168430180 ≤ i ≤ 168430182 → ∃ t, ip_format Demo.net i = inr t) ∧
  ∃ l, expand_range Demo.rt Demo.net "10.10.10.100-10.10.10.102" = inr l ∧
       length l = 3%nat ∧ l !! 1%nat = Some "10.10.10.101".
Proof.
  assert (∀ i, 168430180 ≤ i ≤ 168430182 →
               ∃ t, ip_format Demo.net i = inr t) as Hfmt.
  { intros i Hi. exists (Demo.octets i). cbn. unfold Demo.format.
    replace (0 <=? i) with true by (symmetry; apply Z.leb_le; lia).
    replace (i <? 4294967296) with true by (symmetry; apply Z.ltb_lt; lia).
    reflexivity. }
  split; [exact Hfmt|].
  destruct (expand_range_inclusive Demo.rt Demo.net
              "10.10.10.100" "10.10.10.102" 168430180 168430182
              eq_refl eq_refl eq_refl ltac:(lia) Hfmt)
    as (l & Hl & Hlen & Hk).
  exists l. split; [exact Hl|]. split; [exact Hlen|].
  destruct (Hk 1%nat ltac:(lia)) as (t & Ht & Hp).
  vm_compute in Hp. injection Hp as <-. exact Ht.
Defined.

(** X22 at work: the ends are swapped. *)
Lemma expand_range_reversed_witness :
  expand_range Demo.rt Demo.net "10.10.10.102-10.10.10.100"
  = inl (Exn "ValueError" "Range end must be >= start" false).
Proof.
  apply (expand_range_reversed Demo.rt Demo.net
           "10.10.10.102" "10.10.10.100" 168430182 168430180);
    [reflexivity|reflexivity|reflexivity|lia].
Defined.

(** X23 at work: a host name is taken as it is. *)
Lemma expand_range_single_witness :
  expand_range Demo.rt Demo.net "miner7.lan" = inr ["miner7.lan"].
Proof. apply expand_range_single. reflexivity. Defined.

(** X24 at work: a second dash stays in the end string. *)
Lemma expand_range_unpacks_witness :
  has_char "-" "10.0.0.1-10.0.0.9-x" = true ∧
  ∃ a b, "10.0.0.1-10.0.0.9-x" = a +:+ "-" +:+ b ∧ has_char "-" a = false ∧
         a = "10.0.0.1" ∧ b = "10.0.0.9-x".
Proof.
  split; [reflexivity|].
  destruct (expand_range_unpacks Demo.rt Demo.net "10.0.0.1-10.0.0.9-x" eq_refl)
    as (a & b & Hs & Ha & _).
  exists a, b. split; [exact Hs|]. split; [exact Ha|].
  pose proof (split_dash_app a b Ha) as Hsp.
  rewrite <- Hs in Hsp. vm_compute in Hsp. by injection Hsp as <- <-.
Defined.

(** X26 at work: the switch command for three hosts. *)
Lemma main_starts_runs_with_witness :
  ∃ s, main Demo.rt Demo.net Demo.world Demo.switch_three = (0, Some s) ∧
       length (results s) = 3%nat ∧
       mutation_requested (host_args Demo.switch_three None)
       || do_switchpool (host_args Demo.switch_three None) = true ∧
       0 < cli_workers Demo.switch_three.
Proof.
  destruct (main Demo.rt Demo.net Demo.world Demo.switch_three)
    as [code [s|]] eqn:Hm; [|by vm_compute in Hm].
  destruct (main_starts_runs_with _ _ _ _ _ _ Hm)
    as (hosts & np & Hh & _ & Hnp & Hs & Hreq & _ & Hw).
  assert (code = 0) as -> by (vm_compute in Hm; by injection Hm as <- _).
  exists s. split; [reflexivity|].
  vm_compute in Hnp. injection Hnp as <-.
  split; [|split; [exact Hreq|exact Hw]].
  vm_compute in Hh. injection Hh as <-.
  rewrite Hs. vm_compute. reflexivity.
Defined.

End RangeWitnesses.
